(** * A restaurants CRUD service: the record model and its HTTP handlers

    A shallow embedding of [models.js] (the Mongoose schema of a restaurant,
    its two virtual properties and [apiRepr]) and of [server.js] (the five
    Express route handlers and the fallback), with the properties of the
    service proved about the embedding.

    Conventions.
    - A JavaScript value is a [value]; an object literal is the list of its
      properties in source order. The objects the handlers use as maps
      ([req.query], [req.body], [filter], [toUpdate]) are [gmap]s.
    - A number is an integer that JavaScript holds exactly and writes in
      decimal digits (at most 2^53 in absolute value); a [Date] is its time
      value in milliseconds.
    - A string is a sequence of 8-bit code units.
    - A query parameter is given once and without brackets, so that its
      parsed value is a string.
    - The store is reachable: a promise is rejected only for what the
      request holds (a value or a path id that does not cast, a failed
      validator).
    - A document read from the collection holds an array under [grades]. A
      record stored with [grades: null] is listed in the collection without
      grades; what a later read makes of it is left to the store.
    - Where the comparator of a sort is not consistent (some of its
      comparisons are [NaN]), the order is the implementation's; it is
      modelled by a stable insertion sort.
    - A getter that mutates [this] returns the mutated document next to its
      result; a handler returns the response the client receives, the
      collection afterwards and the in-memory documents it worked on. *)

From Stdlib Require Import ZArith.
From stdpp Require Import gmap strings list fin_maps pretty sorting.

Set Warnings "-register-all".
Open Scope Z_scope.

(** ** JavaScript values *)

Inductive value :=
| Undefined
| Null
| Bool (b : bool)
| Num (n : Z)
| Str (s : string)
| Arr (elems : list value)
| Obj (props : list (string * value)).

(** A schema path that may hold [undefined], [null] or a cast value. *)
Inductive js (A : Type) :=
| Undef
| Nul
| Val (a : A).
Arguments Undef {A}.
Arguments Nul {A}.
Arguments Val {A} a.

#[global] Instance js_eq_dec {A} `{EqDecision A} : EqDecision (js A).
Proof. solve_decision. Defined.

Definition str_value (x : js string) : value :=
  match x with Undef => Undefined | Nul => Null | Val s => Str s end.

(** [x ? ... : ...] and [&&] test truthiness. *)
Definition truthy (v : value) : bool :=
  match v with
  | Undefined | Null => false
  | Bool b => b
  | Num n => negb (n =? 0)
  | Str s => negb (String.eqb s "")
  | Arr _ | Obj _ => true
  end.

(** [a === b]: no coercion; two object or array values met here are never
    the same reference. *)
Definition strict_eq (a b : value) : bool :=
  match a, b with
  | Undefined, Undefined | Null, Null => true
  | Bool x, Bool y => Bool.eqb x y
  | Num x, Num y => x =? y
  | Str x, Str y => String.eqb x y
  | _, _ => false
  end.

Definition join (sep : string) : list string -> string :=
  fix go l :=
    match l with
    | [] => ""
    | [s] => s
    | s :: l' => s +:+ sep +:+ go l'
    end.

(** [String(v)], what a template literal applies to each hole. A number is
    written in decimal digits, as JavaScript writes an integer below
    [10^21]. *)
Fixpoint ToString (v : value) : string :=
  match v with
  | Undefined => "undefined"
  | Null => "null"
  | Bool true => "true"
  | Bool false => "false"
  | Num n => pretty n
  | Str s => s
  | Arr l =>
      join "," (map (fun e => match e with
                              | Undefined | Null => ""
                              | _ => ToString e
                              end) l)
  | Obj _ => "[object Object]"
  end.

(** [o[k]] on an object used as a map: [undefined] for a missing key. *)
Definition prop (o : gmap string value) (k : string) : value :=
  default Undefined (o !! k).

(** [v[k]] on an object value; [keys v] are its own property names. *)
Definition field (ps : list (string * value)) (k : string) : value :=
  default Undefined (snd <$> List.find (fun p => String.eqb (fst p) k) ps).

Definition member (v : value) (k : string) : value :=
  match v with Obj ps => field ps k | _ => Undefined end.

Definition keys (v : value) : list string :=
  match v with Obj ps => ps.*1 | _ => [] end.

(** [k in o]. *)
Definition has_key (o : gmap string value) (k : string) : bool :=
  bool_decide (is_Some (o !! k)).

(** [JSON.stringify], read back as a value: a property holding [undefined]
    is left out, an [undefined] array element becomes [null]. *)
Fixpoint toJSON (v : value) : value :=
  match v with
  | Arr l =>
      Arr (map (fun e => match e with Undefined => Null | _ => toJSON e end) l)
  | Obj ps =>
      Obj ((fix go (ps : list (string * value)) :=
              match ps with
              | [] => []
              | (_, Undefined) :: ps' => go ps'
              | (k, e) :: ps' => (k, toJSON e) :: go ps'
              end) ps)
  | _ => v
  end.

(** ** [String.prototype.trim] *)

(** White space and line terminators among the code units below 256. *)
Definition is_white (c : Ascii.ascii) : bool :=
  let n := Ascii.nat_of_ascii c in
  ((9 <=? n) && (n <=? 13) || (n =? 32) || (n =? 160))%nat.

Fixpoint trimStart (s : string) : string :=
  match s with
  | String c s' => if is_white c then trimStart s' else s
  | EmptyString => ""
  end.

Fixpoint trimEnd (s : string) : string :=
  match s with
  | EmptyString => ""
  | String c s' =>
      match trimEnd s' with
      | EmptyString => if is_white c then "" else String c ""
      | r => String c r
      end
  end.

Definition trim (s : string) : string := trimEnd (trimStart s).

(** A string of white space only. *)
Definition all_white (s : string) : Prop :=
  Forall (fun c => is_white c = true) (String.list_ascii_of_string s).

(** A string that does not begin with white space. *)
Definition starts_clean (s : string) : Prop :=
  match s with
  | String c _ => is_white c = false
  | EmptyString => True
  end.

(** ** The number a comparator returns

    The value of a subtraction of dates: an integer, or [NaN] when an
    operand is [undefined]. *)
Inductive number :=
| NaN
| Finite (z : Z).

(** [ToNumber] of a date path: the time value of a date, [0] for [null],
    [NaN] for [undefined]. *)
Definition ToNumber (d : js Z) : number :=
  match d with
  | Val ms => Finite ms
  | Nul => Finite 0
  | Undef => NaN
  end.

Definition subtract (a b : number) : number :=
  match a, b with
  | Finite x, Finite y => Finite (x - y)
  | _, _ => NaN
  end.

(** What [sort] makes of a comparison: [NaN] counts as [+0]. *)
Definition order (v : number) : Z :=
  match v with
  | NaN => 0
  | Finite z => z
  end.

(** ** [Array.prototype.sort] with a comparator

    A stable insertion sort: [x] goes before the first element it does not
    compare greater than. Where the comparator is not consistent (it gives
    [NaN] for some pairs and not for others) the language leaves the order
    to the implementation; the model is then this insertion sort. *)
Section Sort.
Context {A : Type} (cmp : A -> A -> number).

Fixpoint sort_insert (x : A) (l : list A) : list A :=
  match l with
  | [] => [x]
  | y :: l' =>
      if order (cmp x y) <=? 0 then x :: l else y :: sort_insert x l'
  end.

Definition sort (l : list A) : list A := foldr sort_insert [] l.

(** [a] may stand before [b]: the comparator does not put it after. *)
Definition before (a b : A) : Prop := order (cmp a b) <= 0.
End Sort.

(** ** models.js: the schema *)

Record Address := {
  building : js string;
  coord : list string;
  street : js string;
  zipcode : js string
}.

Module Grade.
Record t := { date : js Z; grade : js string; score : js Z }.
End Grade.

#[global] Instance Grade_eq_dec : EqDecision Grade.t.
Proof. solve_decision. Defined.

Record Restaurant := {
  _id : string;
  name : js string;
  borough : js string;
  cuisine : js string;
  address : Address;
  grades : list Grade.t
}.

Definition set_grades (gs : list Grade.t) (this : Restaurant) : Restaurant :=
  {| _id := _id this; name := name this; borough := borough this;
     cuisine := cuisine this; address := address this; grades := gs |}.

(** The virtual [addressString]. *)
Definition addressString (this : Restaurant) : string :=
  trim (ToString (str_value (building (address this))) +:+ " " +:+
        ToString (str_value (street (address this)))).

(** An entry that carries a date, and the time value of its date. *)
Definition dated (e : Grade.t) : Prop :=
  match Grade.date e with
  | Val _ => True
  | _ => False
  end.

Definition time (e : Grade.t) : Z :=
  match Grade.date e with
  | Val ms => ms
  | _ => 0
  end.

(** The comparator of the [grade] virtual: [(a, b) => b.date - a.date]. *)
Definition by_date_desc (a b : Grade.t) : number :=
  subtract (ToNumber (Grade.date b)) (ToNumber (Grade.date a)).

(** Descending dates: [a] stands before [b] when it is no older; an entry
    without a date compares as equal to any other. *)
Definition newest_first : relation Grade.t := before by_date_desc.

(** The virtual [grade]. [sort] works in place: the document it was read
    from holds the sorted array afterwards. *)
Definition grade (this : Restaurant) : js string * Restaurant :=
  let sorted := sort by_date_desc (grades this) in
  (match sorted with
   | gradeObj :: _ => Grade.grade gradeObj
   | [] => Undef
   end,
   set_grades sorted this).

(** The instance method [apiRepr]: the properties are evaluated in source
    order, so [grade] runs before [addressString]. *)
Definition apiRepr (this : Restaurant) : value * Restaurant :=
  let '(g, this') := grade this in
  (Obj [("id", Str (_id this'));
        ("name", str_value (name this'));
        ("cuisine", str_value (cuisine this'));
        ("borough", str_value (borough this'));
        ("grade", str_value g);
        ("address", Str (addressString this'))],
   this').

(** ** The document store

    The collection is the list of its documents in natural order. What the
    store's driver does with a raw value set on a schema path (its casts to
    [String], to the nested [address] and to the [grades] array; [None] is a
    cast error), which strings it takes for the id of a document (its cast
    of a path id to an [ObjectId]) and how it names a new document is taken
    as an interface: the handlers never look inside it. The cast of
    [grades] gives an array, or [Some None] for a [null] that is stored as
    such. *)
Class Mongoose := {
  castString : value -> option (js string);
  castAddress : value -> option Address;
  castGrades : value -> option (option (list Grade.t));
  validId : string -> bool;
  newId : list string -> string;
  castString_Str : forall s, castString (Str s) = Some (Val s);
  castAddress_Undefined :
    castAddress Undefined =
      Some {| building := Undef; coord := []; street := Undef; zipcode := Undef |};
  castGrades_Undefined : castGrades Undefined = Some (Some []);
  newId_fresh : forall ids, newId ids ∉ ids;
  newId_valid : forall ids, validId (newId ids) = true
}.

(** The document [Restaurant.create] resolves with: the record as the
    collection keeps it, and whether its [grades] is an array. Where it is
    [null], [this.grades.sort] on the document in hand throws; the
    collection keeps the record without grades. *)
Record Created := { record : Restaurant; has_grades : bool }.

(** A settled promise; the reason of a rejection is only ever logged. *)
Inductive promise (A : Type) :=
| Resolved (a : A)
| Rejected.
Arguments Resolved {A} a.
Arguments Rejected {A}.

(** [$set] after casting: the paths to overwrite. *)
Record Update := {
  set_name : option (js string);
  set_borough : option (js string);
  set_cuisine : option (js string);
  set_address : option Address
}.

Definition applyUpdate (u : Update) (d : Restaurant) : Restaurant :=
  {| _id := _id d;
     name := default (name d) (set_name u);
     borough := default (borough d) (set_borough u);
     cuisine := default (cuisine d) (set_cuisine u);
     address := default (address d) (set_address u);
     grades := grades d |}.

(** The [required: true] validator of a [String] path. *)
Definition required (x : js string) : bool :=
  match x with
  | Val s => negb (String.eqb s "")
  | _ => false
  end.

(** The record holds a non-empty string in each path the schema requires. *)
Definition complete (d : Restaurant) : Prop :=
  required (name d) && required (borough d) && required (cuisine d) = true.

(** The [String] paths a query of this service can name. *)
Definition path (d : Restaurant) (k : string) : option (js string) :=
  if String.eqb k "name" then Some (name d)
  else if String.eqb k "borough" then Some (borough d)
  else if String.eqb k "cuisine" then Some (cuisine d)
  else None.

Definition matches (filter : gmap string string) (d : Restaurant) : Prop :=
  map_Forall (fun k v => path d k = Some (Val v)) filter.

#[global] Instance matches_dec flt d : Decision (matches flt d).
Proof. unfold matches. apply _. Defined.

Section Model.
Context `{Mongoose}.

(** [Restaurant.find(filter)] and [.limit(n)]. *)
Definition find (flt : gmap string string) (db : list Restaurant) :
    list Restaurant :=
  filter (matches flt) db.

Definition limit (n : nat) (found : list Restaurant) : list Restaurant :=
  take n found.

(** [Restaurant.findById(id)]: [None] is the [null] of no match, and with
    it the rejection of an id that does not cast, which the get handler
    answers in the same way. *)
Definition findById (id : string) (db : list Restaurant) :
    option Restaurant :=
  if validId id then snd <$> list_find (fun d => _id d = id) db else None.

(** [Restaurant.create(obj)]: cast every path of the schema, run the
    [required] validators of [name], [borough] and [cuisine], store the
    document under a new id. *)
Definition create (obj : gmap string value) (db : list Restaurant) :
    promise Created * list Restaurant :=
  match castString (prop obj "name"), castString (prop obj "borough"),
        castString (prop obj "cuisine"), castAddress (prop obj "address"),
        castGrades (prop obj "grades") with
  | Some n, Some b, Some c, Some a, Some gs =>
      if required n && required b && required c then
        let doc := {| _id := newId (_id <$> db); name := n; borough := b;
                      cuisine := c; address := a; grades := default [] gs |} in
        (Resolved {| record := doc; has_grades := bool_decide (is_Some gs) |},
         db ++ [doc])
      else (Rejected, db)
  | _, _, _, _, _ => (Rejected, db)
  end.

Definition castPath {A} (cast : value -> option A)
    (upd : gmap string value) (k : string) : option (option A) :=
  match upd !! k with
  | Some v => Some <$> cast v
  | None => Some None
  end.

Definition castUpdate (upd : gmap string value) : option Update :=
  n ← castPath castString upd "name";
  b ← castPath castString upd "borough";
  c ← castPath castString upd "cuisine";
  a ← castPath castAddress upd "address";
  Some {| set_name := n; set_borough := b; set_cuisine := c;
          set_address := a |}.

(** [Restaurant.findByIdAndUpdate(id, {$set: upd})], called without the
    [new] option: it resolves with the document as it was found, before the
    update. Validators do not run on an update. An id that does not cast
    rejects the query. *)
Definition findByIdAndUpdate (id : string) (upd : gmap string value)
    (db : list Restaurant) : promise (option Restaurant) * list Restaurant :=
  if validId id then
    match castUpdate upd with
    | None => (Rejected, db)
    | Some u =>
        match list_find (fun d => _id d = id) db with
        | Some (i, d) => (Resolved (Some d), <[i := applyUpdate u d]> db)
        | None => (Resolved None, db)
        end
    end
  else (Rejected, db).

(** [Restaurant.findByIdAndRemove(id)]; an id that does not cast rejects
    the query. *)
Definition findByIdAndRemove (id : string) (db : list Restaurant) :
    promise (option Restaurant) * list Restaurant :=
  if validId id then
    match list_find (fun d => _id d = id) db with
    | Some (i, d) => (Resolved (Some d), delete i db)
    | None => (Resolved None, db)
    end
  else (Rejected, db).
End Model.

(** ** server.js: requests, responses and the route handlers *)

Record Request := {
  params_id : string;
  query : gmap string string;
  body : gmap string value
}.

Inductive Body :=
| Json (v : value)
| Text (s : string)
| Empty.

Record Response := { status : Z; payload : Body }.

(** [res.status(code).json(v)], [res.status(code).send(text)] and
    [res.status(code).end()]. *)
Definition json (code : Z) (v : value) : Response :=
  {| status := code; payload := Json (toJSON v) |}.
Definition send (code : Z) (text : string) : Response :=
  {| status := code; payload := Text text |}.
Definition end_ (code : Z) : Response :=
  {| status := code; payload := Empty |}.

Definition internal_server_error : Response :=
  json 500 (Obj [("message", Str "Internal server error")]).

(** A response can be sent once. A later send throws; thrown inside the
    promise chain it lands in the [catch], whose own send throws again, and
    the rejection goes nowhere: the client keeps what was sent first. *)
Definition sending (sent : option Response) (r : Response) : Response :=
  default r sent.

(** The bodies a client may receive: none, a text, a message, one public
    representation, or a list of them under [restaurants]. *)
Inductive public : Body -> Prop :=
| public_empty : public Empty
| public_text (s : string) : public (Text s)
| public_message (m : string) : public (Json (Obj [("message", Str m)]))
| public_one (d : Restaurant) : public (Json (toJSON (apiRepr d).1))
| public_list (ds : list Restaurant) :
    public (Json (Obj [("restaurants",
                        Arr ((fun d => toJSON (apiRepr d).1) <$> ds))])).

(** What a handler leaves behind. [documents] are the in-memory documents
    it has projected, as they are when it is done. *)
Record Outcome := {
  response : Response;
  collection : list Restaurant;
  documents : list Restaurant
}.

(** [xs.indexOf(x)]. *)
Definition indexOf (xs : list string) (x : string) : Z :=
  match list_find (fun y => y = x) xs with
  | Some (i, _) => Z.of_nat i
  | None => -1
  end.

Definition queryableFields : list string := ["cuisine"; "borough"].
Definition requiredFields : list string := ["name"; "borough"; "cuisine"].
Definition updateableFields : list string :=
  ["name"; "borough"; "cuisine"; "address"].

(** The [for ... in] loop of the list handler. *)
Definition build_filter (q : gmap string string) : gmap string string :=
  map_fold (fun field v flt =>
              if -1 <? indexOf queryableFields field
              then <[field := v]> flt else flt) ∅ q.

(** The [forEach] of the update handler. *)
Definition build_toUpdate (b : gmap string value) : gmap string value :=
  foldl (fun toUpdate field =>
           if has_key b field then <[field := prop b field]> toUpdate
           else toUpdate) ∅ updateableFields.

(** The object the create handler hands to [Restaurant.create]. *)
Definition create_argument (b : gmap string value) : gmap string value :=
  list_to_map [("name", prop b "name");
               ("borough", prop b "borough");
               ("cuisine", prop b "cuisine");
               ("grades", prop b "grades");
               ("address", prop b "address")].

(** The condition of the update handler's id check:
    [req.params.id && req.body.id && req.params.id === req.body.id]. *)
Definition ids_match (req : Request) : bool :=
  truthy (Str (params_id req)) &&
  truthy (prop (body req) "id") &&
  strict_eq (Str (params_id req)) (prop (body req) "id").

Definition missing_message (field : string) : string :=
  "Missing `" +:+ field +:+ "` in request body".

Definition mismatch_message (req : Request) : string :=
  "Request path id (" +:+ params_id req +:+ ") and request body id (" +:+
  ToString (prop (body req) "id") +:+ ") must match".

Section Handlers.
Context `{Mongoose}.

(** [app.get('/restaurants', ...)] *)
Definition get_restaurants (req : Request) (db : list Restaurant) : Outcome :=
  let flt := build_filter (query req) in
  let restaurants := limit 10 (find flt db) in
  let projected := apiRepr <$> restaurants in
  {| response := json 200 (Obj [("restaurants", Arr projected.*1)]);
     collection := db;
     documents := projected.*2 |}.

(** [app.get('/restaurants/:id', ...)]. With no match [restaurant] is
    [null] and [restaurant.apiRepr()] throws into the [catch]. *)
Definition get_restaurants_id (req : Request) (db : list Restaurant) :
    Outcome :=
  match findById (params_id req) db with
  | Some restaurant =>
      let '(repr, doc) := apiRepr restaurant in
      {| response := json 200 repr; collection := db; documents := [doc] |}
  | None =>
      {| response := internal_server_error; collection := db;
         documents := [] |}
  end.

(** [app.post('/restaurants', ...)]. Where the created document holds no
    array of grades, [restaurant.apiRepr()] throws inside the [then] and
    the [catch] answers, the record being stored already. *)
Definition post_restaurants (req : Request) (db : list Restaurant) : Outcome :=
  match List.find (fun field => negb (has_key (body req) field))
                  requiredFields with
  | Some field =>
      {| response := send 400 (missing_message field); collection := db;
         documents := [] |}
  | None =>
      match create (list_to_map
                      [("name", prop (body req) "name");
                       ("borough", prop (body req) "borough");
                       ("cuisine", prop (body req) "cuisine");
                       ("grades", prop (body req) "grades");
                       ("address", prop (body req) "address")]) db with
      | (Resolved restaurant, db') =>
          if has_grades restaurant then
            let '(repr, doc) := apiRepr (record restaurant) in
            {| response := json 201 repr; collection := db';
               documents := [doc] |}
          else
            {| response := internal_server_error; collection := db';
               documents := [] |}
      | (Rejected, db') =>
          {| response := internal_server_error; collection := db';
             documents := [] |}
      end
  end.

(** [app.put('/restaurants/:id', ...)]. The 400 of the id check is sent
    without a [return]: the handler goes on to the update. *)
Definition put_restaurants_id (req : Request) (db : list Restaurant) :
    Outcome :=
  let sent :=
    if negb (ids_match req)
    then Some (json 400 (Obj [("message", Str (mismatch_message req))]))
    else None in
  let toUpdate := build_toUpdate (body req) in
  match findByIdAndUpdate (params_id req) toUpdate db with
  | (Resolved (Some restaurant), db') =>
      let '(repr, doc) := apiRepr restaurant in
      {| response := sending sent (json 202 repr); collection := db';
         documents := [doc] |}
  | (Resolved None, db') | (Rejected, db') =>
      {| response := sending sent internal_server_error; collection := db';
         documents := [] |}
  end.

(** [app.delete('/restaurants/:id', ...)] *)
Definition delete_restaurants_id (req : Request) (db : list Restaurant) :
    Outcome :=
  match findByIdAndRemove (params_id req) db with
  | (Resolved _, db') =>
      {| response := end_ 204; collection := db'; documents := [] |}
  | (Rejected, db') =>
      {| response := internal_server_error; collection := db';
         documents := [] |}
  end.

(** [app.use('*', ...)] *)
Definition not_found (req : Request) (db : list Restaurant) : Outcome :=
  {| response := json 404 (Obj [("message", Str "Not Found")]);
     collection := db; documents := [] |}.
End Handlers.

(** ** A driver for the examples

    An instance of the interface, to run the handlers on examples. It casts
    the values of the examples as the library does when it builds a
    document. On a [String] path a string, a number, a boolean or an array
    is written out as a string, and an object is refused. A value under
    [address] that is no object is ignored. [grades] is an array of
    objects, or [null], which is kept as [null]. The [date] of a grade may
    be missing or [null]; it is a number of milliseconds in the range of a
    date, or a text in the ISO form [YYYY-MM-DD], [YYYY-MM-DDTHH:mm:ssZ] or
    [YYYY-MM-DDTHH:mm:ss.sssZ]. Other spellings of a date, and numbers
    written as text, need the parsers of the library and are refused here:
    the driver stands in for the library in the examples and is no model of
    it. An id is written in hexadecimal digits, 24 of them or more: 24 as
    the library writes one, more because the stand-in never runs out of
    ids. *)
Module Plain.
Definition castString (v : value) : option (js string) :=
  match v with
  | Undefined => Some Undef
  | Null => Some Nul
  | Str s => Some (Val s)
  | Num _ | Bool _ | Arr _ => Some (Val (ToString v))
  | Obj _ => None
  end.

Definition castCoord (v : value) : option (list string) :=
  match v with
  | Undefined => Some []
  | Arr l =>
      mapM (fun e => match e with
                     | Str _ | Num _ | Bool _ => Some (ToString e)
                     | _ => None
                     end) l
  | _ => None
  end.

Definition castAddress (v : value) : option Address :=
  match v with
  | Obj ps =>
      b ← castString (field ps "building");
      c ← castCoord (field ps "coord");
      s ← castString (field ps "street");
      z ← castString (field ps "zipcode");
      Some {| building := b; coord := c; street := s; zipcode := z |}
  | _ =>
      Some {| building := Undef; coord := []; street := Undef;
              zipcode := Undef |}
  end.

Definition code (c : Ascii.ascii) : Z := Z.of_nat (Ascii.nat_of_ascii c).

(** The number written by the [n] decimal digits at the head of [cs], and
    what follows them. *)
Fixpoint number_of (n : nat) (cs : list Ascii.ascii) (acc : Z) :
    option (Z * list Ascii.ascii) :=
  match n, cs with
  | O, _ => Some (acc, cs)
  | S n', c :: cs' =>
      if (48 <=? code c) && (code c <=? 57)
      then number_of n' cs' (10 * acc + (code c - 48))
      else None
  | S _, [] => None
  end.

(** The character of code [k] at the head of [cs]. *)
Definition symbol (k : Z) (cs : list Ascii.ascii) : option (list Ascii.ascii) :=
  match cs with
  | c :: cs' => if code c =? k then Some cs' else None
  | [] => None
  end.

(** The days from the epoch to the first of month [m] of year [y]. *)
Definition days_to_month (y m : Z) : Z :=
  let y' := if m <=? 2 then y - 1 else y in
  let era := y' / 400 in
  let yoe := y' - era * 400 in
  let doy := (153 * (if m <=? 2 then m + 9 else m - 3) + 2) / 5 in
  era * 146097 + (yoe * 365 + yoe / 4 - yoe / 100 + doy) - 719468.

(** The time of day after the [T] of an ISO date-time, in milliseconds. *)
Definition parseTime (cs : list Ascii.ascii) : option Z :=
  '(h, cs) ← number_of 2 cs 0;
  cs ← symbol 58 cs;
  '(mi, cs) ← number_of 2 cs 0;
  cs ← symbol 58 cs;
  '(sec, cs) ← number_of 2 cs 0;
  '(ms, cs) ← match symbol 46 cs with
              | Some cs' => number_of 3 cs' 0
              | None => Some (0, cs)
              end;
  cs ← symbol 90 cs;
  match cs with
  | [] =>
      if ((h <=? 23) && (mi <=? 59) && (sec <=? 59)) ||
         ((h =? 24) && (mi =? 0) && (sec =? 0) && (ms =? 0))
      then Some (((h * 60 + mi) * 60 + sec) * 1000 + ms)
      else None
  | _ :: _ => None
  end.

(** [Date.parse] of an ISO date or date-time in UTC. A day of up to 31 is
    taken in any month and counted on from its first day. *)
Definition parseDate (s : string) : option Z :=
  '(y, cs) ← number_of 4 (String.list_ascii_of_string s) 0;
  cs ← symbol 45 cs;
  '(m, cs) ← number_of 2 cs 0;
  cs ← symbol 45 cs;
  '(d, cs) ← number_of 2 cs 0;
  t ← match cs with
      | [] => Some 0
      | _ :: _ => cs ← symbol 84 cs; parseTime cs
      end;
  if (1 <=? m) && (m <=? 12) && (1 <=? d) && (d <=? 31)
  then Some ((days_to_month y m + (d - 1)) * 86400000 + t)
  else None.

(** A time value is at most 8.64e15 milliseconds from the epoch. *)
Definition castDate (v : value) : option (js Z) :=
  match v with
  | Undefined => Some Undef
  | Null | Str "" => Some Nul
  | Num ms =>
      if Z.abs ms <=? 8640000000000000 then Some (Val ms) else None
  | Str s => Val <$> parseDate s
  | _ => None
  end.

Definition castNumber (v : value) : option (js Z) :=
  match v with
  | Undefined => Some Undef
  | Null => Some Nul
  | Num n => Some (Val n)
  | _ => None
  end.

Definition castGrade (v : value) : option Grade.t :=
  match v with
  | Obj ps =>
      d ← castDate (field ps "date");
      g ← castString (field ps "grade");
      sc ← castNumber (field ps "score");
      Some {| Grade.date := d; Grade.grade := g; Grade.score := sc |}
  | _ => None
  end.

Definition castGrades (v : value) : option (option (list Grade.t)) :=
  match v with
  | Undefined => Some (Some [])
  | Null => Some None
  | Arr l => Some <$> mapM castGrade l
  | _ => None
  end.

Definition is_hex (c : Ascii.ascii) : bool :=
  let n := Ascii.nat_of_ascii c in
  ((48 <=? n) && (n <=? 57) || (97 <=? n) && (n <=? 102) ||
   (65 <=? n) && (n <=? 70))%nat.

Definition validId (id : string) : bool :=
  (24 <=? String.length id)%nat &&
  forallb is_hex (String.list_ascii_of_string id).

Fixpoint digits (n : nat) : string :=
  match n with
  | O => ""
  | S n' => String (Ascii.ascii_of_nat 97) (digits n')
  end.

(** A new id is longer than every id in use. *)
Definition newId (ids : list string) : string :=
  digits (foldr (fun id n => Nat.max (S (String.length id)) n) 24%nat ids).
End Plain.

Lemma length_digits (n : nat) : String.length (Plain.digits n) = n.
Proof. induction n as [|n IH]; simpl; [done | by rewrite IH]. Qed.

Lemma valid_digits (n : nat) :
  forallb Plain.is_hex (String.list_ascii_of_string (Plain.digits n)) = true.
Proof. induction n as [|n IH]; simpl; [done | exact IH]. Qed.

Lemma Plain_newId_longer (ids : list string) (i : string) :
  i ∈ ids -> (String.length i < String.length (Plain.newId ids))%nat.
Proof.
  unfold Plain.newId. rewrite length_digits.
  induction ids as [|j ids IH]; intros Hi.
  - by apply elem_of_nil in Hi.
  - simpl. apply elem_of_cons in Hi as [-> | Hi]; [lia|].
    specialize (IH Hi). lia.
Qed.

Lemma Plain_newId_fresh (ids : list string) : Plain.newId ids ∉ ids.
Proof. intros Hin. apply Plain_newId_longer in Hin. lia. Qed.

Lemma Plain_newId_valid (ids : list string) :
  Plain.validId (Plain.newId ids) = true.
Proof.
  unfold Plain.validId, Plain.newId. rewrite length_digits, valid_digits.
  rewrite andb_true_r. apply Nat.leb_le.
  induction ids as [|j ids IH]; simpl; lia.
Qed.

Definition plain : Mongoose :=
  {| castString := Plain.castString;
     castAddress := Plain.castAddress;
     castGrades := Plain.castGrades;
     validId := Plain.validId;
     newId := Plain.newId;
     castString_Str := fun s => eq_refl;
     castAddress_Undefined := eq_refl;
     castGrades_Undefined := eq_refl;
     newId_fresh := Plain_newId_fresh;
     newId_valid := Plain_newId_valid |}.

(** ** server.js: starting and stopping

    What the process holds: the store connection, the module variable
    [server] ([None] while it is [undefined], otherwise the HTTP server of
    the last start and whether it listens), and the servers of earlier
    starts that still listen and that [server] no longer names. What the
    world answers to a start is an input: whether [mongoose.connect]
    reports no error and whether the port can be bound. *)
Record Process := {
  connected : bool;
  server : option bool;
  orphans : nat
}.

Definition fresh : Process :=
  {| connected := false; server := None; orphans := 0 |}.

(** The HTTP servers of the process that listen. *)
Definition listening (p : Process) : nat :=
  (orphans p + match server p with Some true => 1 | _ => 0 end)%nat.

(** [server = app.listen(...)]: the variable is assigned at once, before
    the server listens or fails; a server it named stays as it is. *)
Definition assign_server (p : Process) (listens : bool) : Process :=
  {| connected := connected p;
     server := Some listens;
     orphans := listening p |}.

Definition disconnect (p : Process) : Process :=
  {| connected := false; server := server p; orphans := orphans p |}.

(** [runServer(databaseUrl, port)] *)
Definition runServer (connects binds : bool) (p : Process) :
    promise unit * Process :=
  if connects then
    let p := {| connected := true; server := server p;
                orphans := orphans p |} in
    if binds then (Resolved tt, assign_server p true)
    else (Rejected, disconnect (assign_server p false))
  else (Rejected, p).

(** [closeServer()]: [server.close] on [undefined] throws inside the
    promise, and on a server that does not listen it reports an error. *)
Definition closeServer (p : Process) : promise unit * Process :=
  let p := disconnect p in
  match server p with
  | Some true =>
      (Resolved tt,
       {| connected := connected p; server := Some false;
          orphans := orphans p |})
  | Some false | None => (Rejected, p)
  end.

(** ** Sample records and requests *)

Definition entry (ms : Z) (g : string) : Grade.t :=
  {| Grade.date := Val ms; Grade.grade := Val g; Grade.score := Undef |}.

(** A grade entry without a date. *)
Definition undated (g : string) : Grade.t :=
  {| Grade.date := Undef; Grade.grade := Val g; Grade.score := Undef |}.

(** The id of the stored sample record, and an id of no stored record. *)
Definition oid : string := "5a4e7d1c9b3f2a6d8c0e1b2f".
Definition absent : string := "5a4e7d1c9b3f2a6d8c0e1b30".

(** A stored record with the id [oid] and the given grades. *)
Definition graded (gs : list Grade.t) : Restaurant :=
  {| _id := oid; name := Val "A"; borough := Val "B"; cuisine := Val "C";
     address := {| building := Val "1"; coord := []; street := Val "Main St";
                   zipcode := Undef |};
     grades := gs |}.

(** A stored record at the given building and street. *)
Definition at_address (b s : string) : Restaurant :=
  {| _id := oid; name := Val "A"; borough := Val "B"; cuisine := Val "C";
     address := {| building := Val b; coord := []; street := Val s;
                   zipcode := Undef |};
     grades := [] |}.

Definition with_body (id : string) (b : gmap string value) : Request :=
  {| params_id := id; query := ∅; body := b |}.

Definition with_query (q : gmap string string) : Request :=
  {| params_id := ""; query := q; body := ∅ |}.

(** [POST {name: "A", borough: "B", cuisine: "C"}] *)
Definition abc : Request :=
  {| params_id := ""; query := ∅;
     body := {[ "name" := Str "A"; "borough" := Str "B";
                "cuisine" := Str "C" ]} |}.

(** [GET /restaurants/:id] *)
Definition by_id (id : string) : Request :=
  {| params_id := id; query := ∅; body := ∅ |}.

(** [POST {name: "A", cuisine: "C"}] *)
Definition no_borough : Request :=
  with_body "" {[ "name" := Str "A"; "cuisine" := Str "C" ]}.

(** [POST {name: null, borough: "B", cuisine: "C"}] *)
Definition null_name : Request :=
  with_body "" {[ "name" := Null; "borough" := Str "B";
                  "cuisine" := Str "C" ]}.

(** [POST {name: "", borough: "B", cuisine: "C"}] *)
Definition empty_name : Request :=
  with_body "" {[ "name" := Str ""; "borough" := Str "B";
                  "cuisine" := Str "C" ]}.

(** [PUT /restaurants/:id {id, name: "Z"}], both ids being [oid]. *)
Definition rename : Request :=
  with_body oid {[ "id" := Str oid; "name" := Str "Z" ]}.

(** [PUT /restaurants/:id {id: wrong, name: "Z"}] *)
Definition rename_with (id : string) (wrong : value) : Request :=
  with_body id {[ "id" := wrong; "name" := Str "Z" ]}.

Definition rename_mismatch : Request := rename_with oid (Str "1").

(** [POST {name: "A", borough: "B", cuisine: "C", grades: null}] *)
Definition null_grades : Request :=
  with_body "" {[ "name" := Str "A"; "borough" := Str "B";
                  "cuisine" := Str "C"; "grades" := Null ]}.

(** [POST] of a record with the grades
    [{date: 10, grade: "C"}, {grade: "N"}, {date: 30, grade: "A"}]. *)
Definition undated_grades : Request :=
  with_body "" {[ "name" := Str "A"; "borough" := Str "B";
                  "cuisine" := Str "C";
                  "grades" :=
                    Arr [Obj [("date", Num 10); ("grade", Str "C")];
                         Obj [("grade", Str "N")];
                         Obj [("date", Num 30); ("grade", Str "A")]] ]}.

(** The record that the driver stores for [abc] in an empty collection. *)
Definition abc_record : Restaurant :=
  {| _id := Plain.newId []; name := Val "A"; borough := Val "B";
     cuisine := Val "C";
     address := {| building := Undef; coord := []; street := Undef;
                   zipcode := Undef |};
     grades := [] |}.

(** The update that [$set]s the name ["Z"] and nothing else. *)
Definition to_Z : Update :=
  {| set_name := Some (Val "Z"); set_borough := None; set_cuisine := None;
     set_address := None |}.

(** * Properties *)

(** ** Sorting *)

Section SortFacts.
Context {A : Type} (cmp : A -> A -> number).

Hypothesis cmp_total :
  forall a b, 0 < order (cmp a b) -> order (cmp b a) <= 0.

Lemma sort_insert_Permutation (x : A) (l : list A) :
  sort_insert cmp x l ≡ₚ x :: l.
Proof using Type.
  induction l as [|y l IH]; simpl; [done|].
  destruct (order (cmp x y) <=? 0); [done|].
  rewrite IH. apply Permutation_swap.
Qed.

Lemma sort_Permutation (l : list A) : sort cmp l ≡ₚ l.
Proof using Type.
  induction l as [|x l IH]; simpl; [done|].
  rewrite sort_insert_Permutation. by f_equiv.
Qed.

(** No element of a sorted array is followed by one that the comparator
    puts before it. *)
Lemma sort_insert_HdRel (a x : A) (l : list A) :
  before cmp a x -> HdRel (before cmp) a l ->
  HdRel (before cmp) a (sort_insert cmp x l).
Proof using Type.
  intros Hax Hal. destruct l as [|y l]; simpl; [by constructor|].
  destruct (order (cmp x y) <=? 0); constructor; [done|].
  by apply HdRel_inv in Hal.
Qed.

Lemma sort_insert_Sorted (x : A) (l : list A) :
  Sorted (before cmp) l -> Sorted (before cmp) (sort_insert cmp x l).
Proof using cmp_total.
  induction 1 as [|y l Hl IH Hy]; simpl.
  - repeat constructor.
  - destruct (Z.leb_spec (order (cmp x y)) 0) as [Hxy|Hxy].
    + constructor; [by constructor|]. by constructor.
    + constructor; [done|].
      apply sort_insert_HdRel; [by apply cmp_total | done].
Qed.

Lemma sort_Sorted (l : list A) : Sorted (before cmp) (sort cmp l).
Proof using cmp_total.
  induction l as [|x l IH]; simpl; [constructor|].
  by apply sort_insert_Sorted.
Qed.

(** Sorting a sorted array moves nothing. *)
Lemma sort_insert_head (x : A) (l : list A) :
  HdRel (before cmp) x l -> sort_insert cmp x l = x :: l.
Proof using Type.
  destruct 1 as [|y l Hy]; simpl; [done|].
  unfold before in Hy. by destruct (Z.leb_spec (order (cmp x y)) 0); [|lia].
Qed.

Lemma sort_id (l : list A) : Sorted (before cmp) l -> sort cmp l = l.
Proof using Type.
  induction 1 as [|x l _ IH Hx]; simpl; [done|].
  rewrite IH. by apply sort_insert_head.
Qed.

(** Among elements on which the comparator is transitive the sorted array
    is in order throughout. *)
Context (P : A -> Prop).

Hypothesis cmp_trans :
  forall a b c, P a -> P b -> P c ->
                before cmp a b -> before cmp b c -> before cmp a c.

Lemma sort_insert_strongly (x : A) (l : list A) :
  P x -> Forall P l ->
  StronglySorted (before cmp) l ->
  StronglySorted (before cmp) (sort_insert cmp x l).
Proof using cmp_total cmp_trans.
  intros Hx HP. induction 1 as [|y l Hl IH Hy]; simpl.
  - repeat constructor.
  - apply Forall_cons in HP as [HPy HP].
    destruct (Z.leb_spec (order (cmp x y)) 0) as [Hxy|Hxy].
    + constructor; [by constructor|].
      constructor; [done|].
      rewrite Forall_forall in Hy, HP. apply Forall_forall.
      intros z Hz. apply (cmp_trans x y z); auto.
    + constructor; [by apply IH|].
      rewrite sort_insert_Permutation.
      constructor; [by apply cmp_total | done].
Qed.

Lemma sort_strongly (l : list A) :
  Forall P l -> StronglySorted (before cmp) (sort cmp l).
Proof using cmp_total cmp_trans.
  induction l as [|x l IH]; simpl; [constructor|].
  intros [Hx HP]%Forall_cons.
  apply sort_insert_strongly; [done | by rewrite sort_Permutation | auto].
Qed.
End SortFacts.

Lemma by_date_desc_total (a b : Grade.t) :
  0 < order (by_date_desc a b) -> order (by_date_desc b a) <= 0.
Proof.
  unfold by_date_desc.
  destruct (ToNumber (Grade.date a)), (ToNumber (Grade.date b)); cbn; lia.
Qed.

Lemma newest_first_dates (a b : Grade.t) :
  dated a -> dated b -> newest_first a b <-> time b <= time a.
Proof.
  unfold newest_first, before, by_date_desc, dated, time.
  destruct (Grade.date a), (Grade.date b); cbn; try done. lia.
Qed.

(** Whatever the entries, no entry of the sorted array is followed by one
    the comparator puts before it. *)
Lemma sort_by_date_Sorted (gs : list Grade.t) :
  Sorted newest_first (sort by_date_desc gs).
Proof. apply sort_Sorted, by_date_desc_total. Qed.

(** Where every entry carries a date the sorted array is in descending
    date order. *)
Lemma sort_by_date_sorted (gs : list Grade.t) :
  Forall dated gs -> StronglySorted newest_first (sort by_date_desc gs).
Proof.
  apply (sort_strongly by_date_desc by_date_desc_total dated).
  intros a b c Ha Hb Hc.
  fold newest_first. rewrite !newest_first_dates by done. lia.
Qed.

Lemma sort_by_date_Permutation (gs : list Grade.t) :
  sort by_date_desc gs ≡ₚ gs.
Proof. apply sort_Permutation. Qed.

(** The head of an array of dated entries in descending date order is an
    entry that no entry of the array is newer than, however the order was
    reached. *)
Lemma newest_first_head (gs sorted : list Grade.t) (top : Grade.t)
    (rest : list Grade.t) :
  Forall dated gs ->
  sorted ≡ₚ gs -> StronglySorted newest_first sorted -> sorted = top :: rest ->
  top ∈ gs /\ forall e, e ∈ gs -> time e <= time top.
Proof.
  intros Hdated Hperm Hsorted ->.
  apply StronglySorted_inv in Hsorted as [_ Htop].
  assert (top ∈ gs) as Hin by (rewrite <- Hperm; apply elem_of_cons; by left).
  split; [done|].
  rewrite Forall_forall in Hdated.
  intros e He. pose proof He as He'. rewrite <- Hperm in He'.
  apply elem_of_cons in He' as [-> | He']; [lia|].
  rewrite Forall_forall in Htop.
  apply newest_first_dates; auto.
Qed.

Lemma sort_by_date_head (gs : list Grade.t) (top : Grade.t) (rest : list Grade.t) :
  Forall dated gs ->
  sort by_date_desc gs = top :: rest ->
  top ∈ gs /\ forall e, e ∈ gs -> time e <= time top.
Proof.
  intros Hdated. apply newest_first_head;
    [done | apply sort_by_date_Permutation | by apply sort_by_date_sorted].
Qed.

Lemma sort_nil_inv (gs : list Grade.t) : sort by_date_desc gs = [] -> gs = [].
Proof.
  intros Hs. apply Permutation_nil_r. by rewrite <- Hs, sort_by_date_Permutation.
Qed.

(** ** The virtuals and [apiRepr] *)

Lemma grade_result (this : Restaurant) :
  (grade this).1 =
    match sort by_date_desc (grades this) with
    | gradeObj :: _ => Grade.grade gradeObj
    | [] => Undef
    end.
Proof. reflexivity. Qed.

Lemma grade_document (this : Restaurant) :
  (grade this).2 = set_grades (sort by_date_desc (grades this)) this.
Proof. reflexivity. Qed.

Lemma addressString_set_grades (gs : list Grade.t) (this : Restaurant) :
  addressString (set_grades gs this) = addressString this.
Proof. reflexivity. Qed.

Lemma apiRepr_result (this : Restaurant) :
  (apiRepr this).1 =
    Obj [("id", Str (_id this));
         ("name", str_value (name this));
         ("cuisine", str_value (cuisine this));
         ("borough", str_value (borough this));
         ("grade", str_value (grade this).1);
         ("address", Str (addressString this))].
Proof. reflexivity. Qed.

Lemma apiRepr_document (this : Restaurant) :
  (apiRepr this).2 = set_grades (sort by_date_desc (grades this)) this.
Proof. reflexivity. Qed.

Lemma grade_of_top (this : Restaurant) (top : Grade.t) :
  Forall dated (grades this) ->
  top ∈ grades this ->
  (forall e, e ∈ grades this -> e <> top -> time e < time top) ->
  (grade this).1 = Grade.grade top.
Proof.
  intros Hdated Hin Hnewer. rewrite grade_result.
  destruct (sort by_date_desc (grades this)) as [|g rest] eqn:Hs.
  - apply sort_nil_inv in Hs. rewrite Hs in Hin. by apply elem_of_nil in Hin.
  - apply sort_by_date_head in Hs as [Hg Hmax]; [|done].
    destruct (decide (g = top)) as [-> | Hne]; [done|].
    specialize (Hnewer g Hg Hne). specialize (Hmax top Hin). lia.
Qed.

(** C1 does not hold of the getter for every record. It holds where every
    entry of [grades] carries a date: the derived [grade] is then the
    [grade] field of an entry that no entry is newer than, of the entry
    with the maximal date when that entry is the only one so new, so of
    the [D3] entry when the dates are [D1 < D2 < D3] in whatever order they
    are stored; and for a record without grades it is [undefined]. An
    entry without a date makes the comparison [NaN]: of the grades
    [{date: 10, grade: "C"}, {grade: "N"}, {date: 30, grade: "A"}] the
    sort moves nothing and the getter gives ["C"], though the entry of
    date 30 is the most recent. *)
Theorem grade_is_most_recent (this : Restaurant) :
  (grades this = [] -> (grade this).1 = Undef) /\
  (Forall dated (grades this) -> grades this <> [] ->
   exists top, top ∈ grades this /\
     (forall e, e ∈ grades this -> time e <= time top) /\
     (grade this).1 = Grade.grade top) /\
  (Forall dated (grades this) ->
   forall top, top ∈ grades this ->
     (forall e, e ∈ grades this -> e <> top -> time e < time top) ->
     (grade this).1 = Grade.grade top) /\
  (forall e1 e2 e3,
     dated e1 -> dated e2 -> dated e3 ->
     time e1 < time e2 < time e3 ->
     grades this ≡ₚ [e1; e2; e3] ->
     (grade this).1 = Grade.grade e3) /\
  let stored := graded [entry 10 "C"; undated "N"; entry 30 "A"] in
  grade stored = (Val "C", stored) /\
  entry 30 "A" ∈ grades stored /\
  (forall e, e ∈ grades stored -> time e <= time (entry 30 "A")) /\
  (grade stored).1 <> Grade.grade (entry 30 "A").
Proof.
  split; [|split; [|split; [|split]]].
  - intros Hnil. rewrite grade_result, Hnil. reflexivity.
  - intros Hdated Hne. rewrite grade_result.
    destruct (sort by_date_desc (grades this)) as [|g rest] eqn:Hs.
    + by apply sort_nil_inv in Hs.
    + apply sort_by_date_head in Hs as [Hg Hmax]; [|done]. by exists g.
  - intros Hdated top. by apply grade_of_top.
  - intros e1 e2 e3 H1 H2 H3 Hdates Hperm. apply grade_of_top.
    + rewrite Hperm. by repeat constructor.
    + rewrite Hperm, !elem_of_cons. auto.
    + intros e He Hne. rewrite Hperm, !elem_of_cons in He.
      destruct He as [-> | [-> | [-> | He]]]; [lia | lia | done |].
      by apply elem_of_nil in He.
  - cbn zeta. split; [reflexivity|]. split.
    + cbn. rewrite !elem_of_cons. auto.
    + split; [|discriminate].
      intros e. cbn. rewrite !elem_of_cons, elem_of_nil.
      intros [-> | [-> | [-> | []]]]; cbn; lia.
Qed.

Lemma grade_is_most_recent_witness :
  (grade (graded [entry 20 "B"; entry 10 "C"; entry 30 "A"])).1 = Val "A".
Proof.
  apply (proj1 (proj2 (proj2 (proj2
           (grade_is_most_recent
              (graded [entry 20 "B"; entry 10 "C"; entry 30 "A"])))))
           (entry 10 "C") (entry 20 "B") (entry 30 "A")).
  - exact I.
  - exact I.
  - exact I.
  - unfold time. simpl. lia.
  - simpl. apply Permutation_swap.
Defined.

(** The record of the failing case is one the service takes: created with
    these grades it is stored with them in the order given, and the 201
    carries the grade ["C"]. *)
Lemma post_restaurants_undated_grades :
  let out := @post_restaurants plain undated_grades [] in
  status (response out) = 201 /\
  (grades <$> collection out) =
    [[entry 10 "C"; undated "N"; entry 30 "A"]] /\
  (exists body, payload (response out) = Json body /\
                member body "grade" = Str "C").
Proof.
  cbn zeta. split; [by vm_compute|]. split; [by vm_compute|].
  eexists. split; by vm_compute.
Qed.

(** ** The in-memory documents of the handlers *)

Section Documents.
Context `{Mongoose}.

Lemma documents_get_restaurants req db d :
  d ∈ documents (get_restaurants req db) ->
  exists stored, stored ∈ db /\ d = (apiRepr stored).2.
Proof.
  change (documents (get_restaurants req db))
    with ((apiRepr <$> limit 10 (find (build_filter (query req)) db)).*2).
  intros Hd.
  apply list_elem_of_fmap in Hd as [[repr d'] [-> Hd]].
  apply list_elem_of_fmap in Hd as [stored [Heq Hin]].
  exists stored. split.
  - unfold limit, find in Hin. apply elem_of_take in Hin as [i [Hin _]].
    apply list_elem_of_lookup_2 in Hin. by apply list_elem_of_filter in Hin as [_ ?].
  - by rewrite <- Heq.
Qed.

Lemma findById_find id db d :
  findById id db = Some d <->
  validId id = true /\
  exists i, list_find (fun d => _id d = id) db = Some (i, d).
Proof.
  unfold findById. destruct (validId id).
  - rewrite fmap_Some. split.
    + intros [[i d'] [Hf ->]]. split; [done|]. by exists i.
    + intros [_ [i Hf]]. by exists (i, d).
  - split; [done | by intros [? _]].
Qed.

Lemma findById_Some id db d :
  findById id db = Some d -> d ∈ db /\ _id d = id.
Proof.
  intros (_ & i & Hf)%findById_find.
  apply list_find_Some in Hf as (Hi & Hid & _).
  split; [by eapply list_elem_of_lookup_2 | done].
Qed.

Lemma findById_None id db :
  findById id db = None <->
  validId id = false \/ forall d, d ∈ db -> _id d <> id.
Proof.
  unfold findById. destruct (validId id).
  - rewrite fmap_None, list_find_None, Forall_forall.
    split; [by right | by intros [? | ?]].
  - split; [by left | done].
Qed.

Lemma documents_get_restaurants_id req db d :
  d ∈ documents (get_restaurants_id req db) ->
  exists stored, stored ∈ db /\ d = (apiRepr stored).2.
Proof.
  unfold get_restaurants_id.
  destruct (findById (params_id req) db) as [stored|] eqn:Hf; simpl.
  - intros ->%list_elem_of_singleton. exists stored.
    by apply findById_Some in Hf as [? _].
  - by intros ?%elem_of_nil.
Qed.

Lemma create_Resolved obj db made db' :
  create obj db = (Resolved made, db') ->
  db' = db ++ [record made] /\
  _id (record made) = newId (_id <$> db) /\
  castString (prop obj "name") = Some (name (record made)) /\
  castString (prop obj "borough") = Some (borough (record made)) /\
  castString (prop obj "cuisine") = Some (cuisine (record made)) /\
  castAddress (prop obj "address") = Some (address (record made)) /\
  (exists gs, castGrades (prop obj "grades") = Some gs /\
              grades (record made) = default [] gs /\
              has_grades made = bool_decide (is_Some gs)) /\
  required (name (record made)) && required (borough (record made)) &&
  required (cuisine (record made)) = true.
Proof.
  unfold create.
  destruct (castString (prop obj "name")) as [n|]; [|done].
  destruct (castString (prop obj "borough")) as [b|]; [|done].
  destruct (castString (prop obj "cuisine")) as [c|]; [|done].
  destruct (castAddress (prop obj "address")) as [a|]; [|done].
  destruct (castGrades (prop obj "grades")) as [gs|]; [|done].
  destruct (required n && required b && required c) eqn:Hreq; [|done].
  intros [= <- <-]. cbn. repeat split; try done. by exists gs.
Qed.

Lemma create_Rejected obj db db' :
  create obj db = (Rejected, db') -> db' = db.
Proof.
  unfold create.
  repeat (match goal with
          | |- context [match ?c with Some _ => _ | None => _ end] =>
              destruct c; [|by intros [= <-]]
          end).
  match goal with |- context [if ?c then _ else _] => destruct c end;
    [done | by intros [= <-]].
Qed.

(** What [Restaurant.create] takes and what it refuses. *)
Lemma create_accepts obj db n b c a gs :
  castString (prop obj "name") = Some n ->
  castString (prop obj "borough") = Some b ->
  castString (prop obj "cuisine") = Some c ->
  castAddress (prop obj "address") = Some a ->
  castGrades (prop obj "grades") = Some gs ->
  create obj db =
    if required n && required b && required c then
      let doc := {| _id := newId (_id <$> db); name := n; borough := b;
                    cuisine := c; address := a; grades := default [] gs |} in
      (Resolved {| record := doc; has_grades := bool_decide (is_Some gs) |},
       db ++ [doc])
    else (Rejected, db).
Proof. unfold create. by intros -> -> -> -> ->. Qed.

Lemma create_refuses obj db :
  castString (prop obj "name") = None \/
  castString (prop obj "borough") = None \/
  castString (prop obj "cuisine") = None \/
  castAddress (prop obj "address") = None \/
  castGrades (prop obj "grades") = None ->
  create obj db = (Rejected, db).
Proof.
  unfold create.
  destruct (castString (prop obj "name")) as [n|]; [|done].
  destruct (castString (prop obj "borough")) as [b|]; [|done].
  destruct (castString (prop obj "cuisine")) as [c|]; [|done].
  destruct (castAddress (prop obj "address")) as [a|]; [|done].
  destruct (castGrades (prop obj "grades")) as [gs|]; [|done].
  intros [? | [? | [? | [? | ?]]]]; discriminate.
Qed.

Lemma post_restaurants_unfold req db :
  post_restaurants req db =
    match List.find (fun field => negb (has_key (body req) field))
                    requiredFields with
    | Some field =>
        {| response := send 400 (missing_message field); collection := db;
           documents := [] |}
    | None =>
        match create (create_argument (body req)) db with
        | (Resolved restaurant, db') =>
            if has_grades restaurant then
              {| response := json 201 (apiRepr (record restaurant)).1;
                 collection := db';
                 documents := [(apiRepr (record restaurant)).2] |}
            else
              {| response := internal_server_error; collection := db';
                 documents := [] |}
        | (Rejected, db') =>
            {| response := internal_server_error; collection := db';
               documents := [] |}
        end
    end.
Proof.
  unfold post_restaurants.
  destruct (List.find _ requiredFields); [done|].
  by destruct (create _ db) as [[[restaurant []]|] db'].
Qed.

Lemma documents_post_restaurants req db d :
  d ∈ documents (post_restaurants req db) ->
  exists stored, stored ∈ collection (post_restaurants req db) /\
                 d = (apiRepr stored).2.
Proof.
  rewrite post_restaurants_unfold.
  destruct (List.find _ requiredFields); [by intros ?%elem_of_nil|].
  destruct (create _ db) as [[restaurant|] db'] eqn:Hc;
    [|by intros ?%elem_of_nil].
  destruct (has_grades restaurant); [|by intros ?%elem_of_nil].
  intros ->%list_elem_of_singleton. exists (record restaurant).
  split; [|done].
  apply create_Resolved in Hc as [-> _]. cbn [collection].
  apply elem_of_app. right. by apply list_elem_of_singleton.
Qed.

Lemma documents_put_restaurants_id req db d :
  d ∈ documents (put_restaurants_id req db) ->
  exists stored, stored ∈ db /\ d = (apiRepr stored).2.
Proof.
  unfold put_restaurants_id, findByIdAndUpdate.
  destruct (validId _); simpl; [|by intros ?%elem_of_nil].
  destruct (castUpdate _) as [u|]; simpl; [|by intros ?%elem_of_nil].
  destruct (list_find _ db) as [[i stored]|] eqn:Hf; simpl;
    [|by intros ?%elem_of_nil].
  intros ->%list_elem_of_singleton. exists stored. split; [|done].
  apply list_find_Some in Hf as (Hi & _). by eapply list_elem_of_lookup_2.
Qed.
End Documents.

(** C10, as amended. Reading [grade] sorts the [grades] array of the
    document it is read from, in place: the array is left as the sort
    leaves it, a rearrangement of its entries, in descending date order
    where every entry carries a date. [apiRepr] reads [grade], so every
    document a list, get, create or update handler has projected holds its
    grades as sorted: reordered where they were not in order, and left as
    they were where they already were. *)
Theorem grade_sorts_in_place `{Mongoose} :
  (forall this,
     let this' := (grade this).2 in
     grades this' = sort by_date_desc (grades this) /\
     grades this' ≡ₚ grades this /\
     (apiRepr this).2 = this' /\
     (Forall dated (grades this) ->
      StronglySorted newest_first (grades this') /\
      (grades this' = grades this <->
       StronglySorted newest_first (grades this)))) /\
  (forall req db d,
     d ∈ documents (get_restaurants req db) \/
     d ∈ documents (get_restaurants_id req db) \/
     d ∈ documents (post_restaurants req db) \/
     d ∈ documents (put_restaurants_id req db) ->
     exists stored,
       d = (apiRepr stored).2 /\
       grades d = sort by_date_desc (grades stored) /\
       (Forall dated (grades stored) ->
        StronglySorted newest_first (grades d))) /\
  (exists this,
     Forall dated (grades this) /\ grades (apiRepr this).2 <> grades this).
Proof.
  split; [|split].
  - intros this. cbn zeta. rewrite grade_document. cbn [grades set_grades].
    split; [done|]. split; [apply sort_by_date_Permutation|].
    split; [done|]. intros Hdated.
    split; [by apply sort_by_date_sorted|]. split.
    + intros Heq. rewrite <- Heq. by apply sort_by_date_sorted.
    + intros Hs. by apply sort_id, StronglySorted_Sorted.
  - intros req db d Hd.
    assert (exists stored, d = (apiRepr stored).2) as [stored ->].
    { destruct Hd as [Hd | [Hd | [Hd | Hd]]].
      - apply documents_get_restaurants in Hd as (s & _ & ->). by exists s.
      - apply documents_get_restaurants_id in Hd as (s & _ & ->). by exists s.
      - apply documents_post_restaurants in Hd as (s & _ & ->). by exists s.
      - apply documents_put_restaurants_id in Hd as (s & _ & ->). by exists s. }
    exists stored. split; [done|]. split; [done|]. apply sort_by_date_sorted.
  - exists (graded [entry 10 "C"; entry 30 "A"]). split.
    + by repeat constructor.
    + simpl. discriminate.
Qed.

Lemma grade_sorts_in_place_witness :
  exists stored,
    graded [entry 30 "A"; entry 10 "C"] = (apiRepr stored).2 /\
    grades (graded [entry 30 "A"; entry 10 "C"]) =
      sort by_date_desc (grades stored) /\
    (Forall dated (grades stored) ->
     StronglySorted newest_first
       (grades (graded [entry 30 "A"; entry 10 "C"]))).
Proof.
  apply (proj1 (proj2 (@grade_sorts_in_place plain))
           (by_id oid) [graded [entry 10 "C"; entry 30 "A"]]).
  right. left. vm_compute. apply list_elem_of_here.
Defined.

(** C10, as stated, fails: projecting a record without grades, or one whose
    grades are in descending date order already, leaves the sequence
    unchanged, not reordered. *)
Lemma apiRepr_leaves_sorted_grades :
  grades (apiRepr (graded [])).2 = grades (graded []) /\
  grades (apiRepr (graded [entry 30 "A"; entry 10 "C"])).2 =
    grades (graded [entry 30 "A"; entry 10 "C"]).
Proof. split; reflexivity. Qed.

(** ** The create handler *)

Lemma prop_create_argument (b : gmap string value) (k : string) :
  k ∈ ["name"; "borough"; "cuisine"; "grades"; "address"] ->
  prop (create_argument b) k = prop b k.
Proof.
  rewrite !elem_of_cons, elem_of_nil.
  intros [-> | [-> | [-> | [-> | [-> | []]]]]]; reflexivity.
Qed.

(** C3, as amended. A create request whose body lacks one of the keys
    [name], [borough], [cuisine] is answered 400 with the plain-text
    message that names the first missing one in that order, and nothing is
    stored; the check looks at the keys only. With the three keys present
    the handler asks the store to create a record from [name], [borough],
    [cuisine], [grades] and [address] of the body. Where one of the five
    does not cast, or the cast [name], [borough] or [cuisine] is not a
    non-empty string, the answer is 500 with the generic message and
    nothing is stored. Otherwise the record made of the five casts is
    appended to the collection under a new id, and where its [grades] is
    an array the answer is 201 with its public representation. The theorem
    states as well what the handler does in the case this leaves open:
    where [grades] is [null] the record is stored all the same and the
    answer is 500, the projection failing on the stored record. *)
Theorem post_restaurants_validation `{Mongoose} (req : Request)
    (db : list Restaurant) :
  let b := body req in
  let out := post_restaurants req db in
  (has_key b "name" = false ->
   response out = send 400 "Missing `name` in request body" /\
   collection out = db /\ documents out = []) /\
  (has_key b "name" = true -> has_key b "borough" = false ->
   response out = send 400 "Missing `borough` in request body" /\
   collection out = db /\ documents out = []) /\
  (has_key b "name" = true -> has_key b "borough" = true ->
   has_key b "cuisine" = false ->
   response out = send 400 "Missing `cuisine` in request body" /\
   collection out = db /\ documents out = []) /\
  (has_key b "name" = true -> has_key b "borough" = true ->
   has_key b "cuisine" = true ->
   (castString (prop b "name") = None \/
    castString (prop b "borough") = None \/
    castString (prop b "cuisine") = None \/
    castAddress (prop b "address") = None \/
    castGrades (prop b "grades") = None ->
    response out = internal_server_error /\ collection out = db) /\
   (forall n bo c a gs,
      castString (prop b "name") = Some n ->
      castString (prop b "borough") = Some bo ->
      castString (prop b "cuisine") = Some c ->
      castAddress (prop b "address") = Some a ->
      castGrades (prop b "grades") = Some gs ->
      let doc := {| _id := newId (_id <$> db); name := n; borough := bo;
                    cuisine := c; address := a; grades := default [] gs |} in
      (required n && required bo && required c = false ->
       response out = internal_server_error /\ collection out = db) /\
      (required n && required bo && required c = true ->
       collection out = db ++ [doc] /\
       (is_Some gs -> response out = json 201 (apiRepr doc).1) /\
       (gs = None -> response out = internal_server_error)))).
Proof.
  intros b out. subst out. rewrite post_restaurants_unfold. fold b.
  unfold requiredFields. cbn [List.find].
  split; [|split; [|split]].
  - by intros ->.
  - by intros -> ->.
  - by intros -> -> ->.
  - intros -> -> ->. cbn [negb]. split.
    + intros Hno. rewrite create_refuses; [done|].
      by rewrite !prop_create_argument by (rewrite !elem_of_cons; auto 10).
    + intros n bo c a gs Hn Hb Hc Ha Hg.
      rewrite (create_accepts _ db n bo c a gs)
        by (by rewrite prop_create_argument by (rewrite !elem_of_cons; auto 10)).
      split; intros ->; [done|]. cbn zeta.
      destruct gs as [gs|]; cbn.
      * split; [done|]. split; [done | by intros ?].
      * split; [done|]. split; [by intros [? ?] | done].
Qed.

Lemma post_restaurants_validation_witness :
  collection (@post_restaurants plain abc []) = [abc_record] /\
  response (@post_restaurants plain abc []) = json 201 (apiRepr abc_record).1.
Proof.
  destruct (proj2 (proj2 (proj2 (@post_restaurants_validation plain abc [])))
              eq_refl eq_refl eq_refl) as [_ Htaken].
  destruct (Htaken (Val "A") (Val "B") (Val "C")
              {| building := Undef; coord := []; street := Undef;
                 zipcode := Undef |} (Some [])
              eq_refl eq_refl eq_refl eq_refl eq_refl) as [_ Hstored].
  destruct (Hstored eq_refl) as (Hcollection & Hresponse & _).
  split; [exact Hcollection|]. apply Hresponse. by eexists.
Defined.

(** C3, as stated, fails: a body with the three keys whose [name] is [null]
    passes the presence check, the schema's [required] refuses the record,
    and the answer is 500 with nothing stored. *)
Lemma post_restaurants_null_name :
  forallb (has_key (body null_name)) requiredFields = true /\
  status (response (@post_restaurants plain null_name [])) = 500 /\
  status (response (@post_restaurants plain null_name [])) <> 201 /\
  collection (@post_restaurants plain null_name []) = [].
Proof. vm_compute. by repeat split. Qed.

(** An empty string passes the presence check as well, and is refused by
    [required] in the same way. *)
Lemma post_restaurants_empty_name :
  forallb (has_key (body empty_name)) requiredFields = true /\
  response (@post_restaurants plain empty_name []) = internal_server_error /\
  collection (@post_restaurants plain empty_name []) = [].
Proof. vm_compute. by repeat split. Qed.

(** With [grades: null] the record is stored, and the answer is 500 all the
    same: the projection of the created document throws. *)
Lemma post_restaurants_null_grades :
  forallb (has_key (body null_grades)) requiredFields = true /\
  response (@post_restaurants plain null_grades []) = internal_server_error /\
  collection (@post_restaurants plain null_grades []) = [abc_record].
Proof. vm_compute. by repeat split. Qed.

(** ** The get-by-id handler *)

(** C5. A get request whose id matches no stored document finds [null],
    fails on projecting it, and is answered 500 with
    [{message: 'Internal server error'}]; no other status marks the
    missing document. *)
Theorem get_restaurants_id_missing `{Mongoose} (req : Request)
    (db : list Restaurant) :
  (forall d, d ∈ db -> _id d <> params_id req) ->
  findById (params_id req) db = None /\
  response (get_restaurants_id req db) =
    {| status := 500;
       payload := Json (Obj [("message", Str "Internal server error")]) |} /\
  collection (get_restaurants_id req db) = db.
Proof.
  intros Hmiss. assert (findById (params_id req) db = None) as Hnone
    by (apply findById_None; by right).
  unfold get_restaurants_id. rewrite Hnone. by repeat split.
Qed.

Lemma get_restaurants_id_missing_witness :
  @findById plain absent [graded []] = None /\
  response (@get_restaurants_id plain (by_id absent) [graded []]) =
    {| status := 500;
       payload := Json (Obj [("message", Str "Internal server error")]) |} /\
  collection (@get_restaurants_id plain (by_id absent) [graded []]) =
    [graded []].
Proof.
  apply (@get_restaurants_id_missing plain (by_id absent) [graded []]).
  intros d Hd. apply list_elem_of_singleton in Hd. rewrite Hd. discriminate.
Defined.

(** ** The update handler *)

Lemma has_key_true (b : gmap string value) (k : string) :
  has_key b k = true <-> exists v, b !! k = Some v /\ prop b k = v.
Proof.
  unfold has_key, prop. rewrite bool_decide_eq_true. split.
  - intros [v Hv]. exists v. by rewrite Hv.
  - intros [v [Hv _]]. by exists v.
Qed.

Lemma has_key_false (b : gmap string value) (k : string) :
  has_key b k = false <-> b !! k = None.
Proof.
  unfold has_key. rewrite bool_decide_eq_false, <- eq_None_not_Some. done.
Qed.

(** The id check passes exactly when the path id is not empty and the body
    holds that same string under [id]. *)
Lemma ids_match_true (req : Request) :
  ids_match req = true <->
  params_id req <> "" /\ body req !! "id" = Some (Str (params_id req)).
Proof.
  unfold ids_match, prop. cbn [truthy].
  rewrite !andb_true_iff, negb_true_iff, String.eqb_neq.
  split.
  - intros [[Hne _] Heq]. split; [done|].
    destruct (body req !! "id") as [[]|]; simpl in Heq; try done.
    by apply String.eqb_eq in Heq as ->.
  - intros [Hne ->]. simpl. rewrite String.eqb_refl.
    split; [split; [done|] | done].
    by apply negb_true_iff, String.eqb_neq.
Qed.

Section ToUpdate.
Context (b : gmap string value).

Let step (toUpdate : gmap string value) (field : string) :=
  if has_key b field then <[field := prop b field]> toUpdate else toUpdate.

Lemma toUpdate_step_lookup acc field k :
  step acc field !! k =
    if decide (k = field)
    then match b !! k with Some v => Some v | None => acc !! k end
    else acc !! k.
Proof.
  unfold step. destruct (has_key b field) eqn:Hk.
  - apply has_key_true in Hk as (v & Hv & ->).
    destruct (decide (k = field)) as [-> | Hne].
    + by rewrite lookup_insert_eq, Hv.
    + by rewrite lookup_insert_ne.
  - apply has_key_false in Hk.
    destruct (decide (k = field)) as [-> | Hne]; [by rewrite Hk | done].
Qed.

Lemma toUpdate_foldl_lookup fields acc k :
  foldl step acc fields !! k =
    if bool_decide (k ∈ fields)
    then match b !! k with Some v => Some v | None => acc !! k end
    else acc !! k.
Proof.
  revert acc. induction fields as [|field fields IH]; intros acc; [done|].
  cbn [foldl]. rewrite IH, toUpdate_step_lookup.
  destruct (decide (k = field)) as [-> | Hne].
  - rewrite (bool_decide_eq_true_2 (field ∈ field :: fields))
      by (apply elem_of_cons; auto).
    case_bool_decide; by destruct (b !! field).
  - case_bool_decide as Hin.
    + by rewrite bool_decide_eq_true_2 by (apply elem_of_cons; auto).
    + rewrite bool_decide_eq_false_2; [done|].
      rewrite elem_of_cons. intros [? | ?]; done.
Qed.

Lemma build_toUpdate_lookup k :
  build_toUpdate b !! k =
    if bool_decide (k ∈ updateableFields) then b !! k else None.
Proof.
  unfold build_toUpdate. fold step. rewrite toUpdate_foldl_lookup.
  rewrite lookup_empty. case_bool_decide; by destruct (b !! k).
Qed.
End ToUpdate.

Section Update.
Context `{Mongoose}.



Lemma put_restaurants_id_unfold req db :
  put_restaurants_id req db =
    let sent :=
      if negb (ids_match req)
      then Some (json 400 (Obj [("message", Str (mismatch_message req))]))
      else None in
    match findByIdAndUpdate (params_id req) (build_toUpdate (body req)) db with
    | (Resolved (Some restaurant), db') =>
        {| response := sending sent (json 202 (apiRepr restaurant).1);
           collection := db';
           documents := [(apiRepr restaurant).2] |}
    | (Resolved None, db') | (Rejected, db') =>
        {| response := sending sent internal_server_error; collection := db';
           documents := [] |}
    end.
Proof.
  unfold put_restaurants_id.
  by destruct (findByIdAndUpdate _ _ db) as [[[restaurant|]|] db'].
Qed.

Lemma collection_put_restaurants_id req db :
  collection (put_restaurants_id req db) =
    (findByIdAndUpdate (params_id req) (build_toUpdate (body req)) db).2.
Proof.
  rewrite put_restaurants_id_unfold.
  by destruct (findByIdAndUpdate _ _ db) as [[[restaurant|]|] db'].
Qed.

(** The 400 of a failed id check is what the client receives, and the
    update is carried out all the same. *)
Lemma put_restaurants_id_mismatch req db :
  ids_match req = false ->
  response (put_restaurants_id req db) =
    json 400 (Obj [("message", Str (mismatch_message req))]) /\
  collection (put_restaurants_id req db) =
    (findByIdAndUpdate (params_id req) (build_toUpdate (body req)) db).2.
Proof.
  intros Hm. split; [|apply collection_put_restaurants_id].
  rewrite put_restaurants_id_unfold, Hm.
  by destruct (findByIdAndUpdate _ _ db) as [[[restaurant|]|] db'].
Qed.
End Update.



(** C6, as amended. A successful update request (the ids match, a record
    with that id is stored, the store takes the update) is answered 202
    with the public representation of the record as it was found, before
    the update; the updated field values are in the store. *)
Theorem put_restaurants_id_responds_with_found `{Mongoose} (req : Request)
    (db : list Restaurant) (found : Restaurant) (u : Update) :
  ids_match req = true ->
  findById (params_id req) db = Some found ->
  castUpdate (build_toUpdate (body req)) = Some u ->
  response (put_restaurants_id req db) = json 202 (apiRepr found).1 /\
  exists i, db !! i = Some found /\
    collection (put_restaurants_id req db) = <[i := applyUpdate u found]> db.
Proof.
  intros Hm (Hv & i & Hf)%findById_find Hu.
  rewrite put_restaurants_id_unfold, Hm. unfold findByIdAndUpdate.
  rewrite Hv, Hu, Hf. cbn. split; [done|]. exists i. split; [|done].
  by apply list_find_Some in Hf as (? & _).
Qed.

Lemma put_restaurants_id_responds_with_found_witness :
  response (@put_restaurants_id plain rename [graded []]) =
    json 202 (apiRepr (graded [])).1 /\
  exists i, [graded []] !! i = Some (graded []) /\
    collection (@put_restaurants_id plain rename [graded []]) =
      <[i := applyUpdate {| set_name := Some (Val "Z"); set_borough := None;
                            set_cuisine := None; set_address := None |}
                         (graded [])]> [graded []].
Proof.
  apply (@put_restaurants_id_responds_with_found plain rename [graded []]);
    reflexivity.
Defined.

(** C6, as stated, fails: the update that renames the record ["A"] to ["Z"]
    is answered 202 with the name ["A"]; the body is not the public
    representation of the record the store holds afterwards. *)
Lemma put_restaurants_id_response_is_stale :
  let out := @put_restaurants_id plain rename [graded []] in
  let updated :=
    applyUpdate {| set_name := Some (Val "Z"); set_borough := None;
                   set_cuisine := None; set_address := None |} (graded []) in
  ids_match rename = true /\
  status (response out) = 202 /\
  collection out = [updated] /\
  name updated = Val "Z" /\
  member (match payload (response out) with Json v => v | _ => Null end)
         "name" = Str "A" /\
  payload (response out) <> Json (toJSON (apiRepr updated).1).
Proof. vm_compute. by repeat split. Qed.

(** ** The list handler *)

Lemma indexOf_found (xs : list string) (x : string) :
  (-1 <? indexOf xs x) = bool_decide (x ∈ xs).
Proof.
  unfold indexOf. destruct (list_find _ xs) as [[i y]|] eqn:Hf.
  - apply list_find_Some in Hf as (Hi & -> & _).
    rewrite bool_decide_eq_true_2 by (by eapply list_elem_of_lookup_2).
    apply Z.ltb_lt. lia.
  - apply list_find_None in Hf. rewrite bool_decide_eq_false_2; [done|].
    intros Hin. rewrite Forall_forall in Hf. by apply (Hf x).
Qed.

Lemma build_filter_lookup (q : gmap string string) (k : string) :
  build_filter q !! k =
    if bool_decide (k ∈ queryableFields) then q !! k else None.
Proof.
  unfold build_filter. revert k.
  apply (map_fold_weak_ind
           (fun flt (m : gmap string string) => forall k,
              flt !! k =
                if bool_decide (k ∈ queryableFields) then m !! k else None)).
  - intros k. rewrite !lookup_empty. by case_bool_decide.
  - intros field v m flt Hfresh IH k. rewrite indexOf_found.
    destruct (decide (k = field)) as [-> | Hne].
    + rewrite lookup_insert_eq. case_bool_decide.
      * by rewrite lookup_insert_eq.
      * rewrite IH, Hfresh. by case_bool_decide.
    + rewrite (lookup_insert_ne m) by done.
      case_bool_decide; [by rewrite lookup_insert_ne|]; apply IH.
Qed.

Lemma build_filter_Some (q : gmap string string) (k v : string) :
  build_filter q !! k = Some v <->
  (k = "cuisine" \/ k = "borough") /\ q !! k = Some v.
Proof.
  rewrite build_filter_lookup. unfold queryableFields.
  case_bool_decide as Hk; rewrite !elem_of_cons, elem_of_nil in Hk.
  - split; [intros Hq; split; [tauto|done] | by intros [_ ?]].
  - split; [done | intros [? _]; tauto].
Qed.

Lemma matches_build_filter (q : gmap string string) (d : Restaurant) :
  matches (build_filter q) d <->
  (forall v, q !! "cuisine" = Some v -> cuisine d = Val v) /\
  (forall v, q !! "borough" = Some v -> borough d = Val v).
Proof.
  unfold matches, map_Forall. split.
  - intros Hall. split; intros v Hv.
    + assert (path d "cuisine" = Some (Val v)) as Hp
        by (apply Hall, build_filter_Some; auto).
      by injection Hp.
    + assert (path d "borough" = Some (Val v)) as Hp
        by (apply Hall, build_filter_Some; auto).
      by injection Hp.
  - intros [Hc Hb] k v [[-> | ->] Hv]%build_filter_Some; cbn.
    + by rewrite (Hc v Hv).
    + by rewrite (Hb v Hv).
Qed.

Lemma toJSON_restaurants (found : list Restaurant) :
  toJSON (Obj [("restaurants", Arr (apiRepr <$> found).*1)]) =
  Obj [("restaurants", Arr ((fun d => toJSON (apiRepr d).1) <$> found))].
Proof.
  cbn [toJSON]. do 4 f_equal.
  induction found as [|d found IH]; [done|].
  cbn [fmap list_fmap map]. f_equal. exact IH.
Qed.

(** C7. The list handler filters on exactly those of the query parameters
    [cuisine] and [borough] that are present, each by equality with the
    stored string, whatever else the query holds; it takes the first ten of
    the matching documents, fewer when fewer match, and answers 200 with
    [{restaurants: [...]}], each document in its public representation. *)
Theorem get_restaurants_lists (req : Request) (db : list Restaurant) :
  let flt := build_filter (query req) in
  let found := limit 10 (find flt db) in
  (forall k,
     flt !! k =
       if bool_decide (k ∈ queryableFields) then query req !! k else None) /\
  (forall d,
     d ∈ find flt db <->
     d ∈ db /\
     (forall v, query req !! "cuisine" = Some v -> cuisine d = Val v) /\
     (forall v, query req !! "borough" = Some v -> borough d = Val v)) /\
  found = take 10 (find flt db) /\
  length found = Nat.min 10 (length (find flt db)) /\
  response (get_restaurants req db) =
    {| status := 200;
       payload :=
         Json (Obj [("restaurants",
                     Arr ((fun d => toJSON (apiRepr d).1) <$> found))]) |} /\
  collection (get_restaurants req db) = db /\
  (forall req',
     query req' !! "cuisine" = query req !! "cuisine" ->
     query req' !! "borough" = query req !! "borough" ->
     response (get_restaurants req' db) = response (get_restaurants req db)).
Proof.
  intros flt found. subst flt found.
  split; [apply build_filter_lookup|].
  split.
  { intros d. unfold find. rewrite list_elem_of_filter, matches_build_filter.
    tauto. }
  split; [done|]. split; [apply length_take|].
  split.
  { unfold get_restaurants, json. cbn [response].
    by rewrite toJSON_restaurants. }
  split; [done|].
  intros req' Hc Hb. unfold get_restaurants. cbn [response].
  replace (build_filter (query req')) with (build_filter (query req)); [done|].
  apply map_eq. intros k. rewrite !build_filter_lookup.
  case_bool_decide as Hk; [|done].
  unfold queryableFields in Hk. rewrite !elem_of_cons, elem_of_nil in Hk.
  destruct Hk as [-> | [-> | []]]; done.
Qed.

Lemma get_restaurants_lists_witness :
  response (get_restaurants (with_query {[ "cuisine" := "C"; "page" := "2" ]})
                            [graded []]) =
  response (get_restaurants (with_query {[ "cuisine" := "C" ]}) [graded []]).
Proof.
  apply (proj2 (proj2 (proj2 (proj2 (proj2 (proj2
           (get_restaurants_lists (with_query {[ "cuisine" := "C" ]})
                                  [graded []])))))));
    reflexivity.
Defined.

(** ** The public representation *)

Lemma keys_toJSON (ps : list (string * value)) (k : string) :
  k ∈ keys (toJSON (Obj ps)) -> k ∈ keys (Obj ps).
Proof.
  cbn [toJSON keys].
  induction ps as [|[k' v] ps IH]; [done|].
  cbn [fmap list_fmap fst]. rewrite elem_of_cons.
  destruct v; cbn [fmap list_fmap fst]; rewrite ?elem_of_cons; tauto.
Qed.

Section Public.
Context `{Mongoose}.

Lemma public_get_restaurants req db :
  public (payload (response (get_restaurants req db))).
Proof.
  unfold get_restaurants, json. cbn [response payload].
  rewrite toJSON_restaurants. constructor.
Qed.

Lemma public_get_restaurants_id req db :
  public (payload (response (get_restaurants_id req db))).
Proof.
  unfold get_restaurants_id.
  destruct (findById _ db) as [d|]; [apply (public_one d) | constructor].
Qed.

Lemma public_post_restaurants req db :
  public (payload (response (post_restaurants req db))).
Proof.
  rewrite post_restaurants_unfold.
  destruct (List.find _ requiredFields); [constructor|].
  destruct (create _ db) as [[[d []]|] db'];
    [apply (public_one d) | constructor | constructor].
Qed.

Lemma public_put_restaurants_id req db :
  public (payload (response (put_restaurants_id req db))).
Proof.
  rewrite put_restaurants_id_unfold.
  destruct (ids_match req); cbn [negb];
    destruct (findByIdAndUpdate _ _ db) as [[[d|]|] db'];
    first [apply (public_one d) | constructor].
Qed.

Lemma public_delete_restaurants_id req db :
  public (payload (response (delete_restaurants_id req db))).
Proof.
  unfold delete_restaurants_id.
  destruct (findByIdAndRemove _ db) as [[d|] db']; constructor.
Qed.
End Public.

(** C2. [apiRepr] produces the object [{id, name, cuisine, borough, grade,
    address}], with [grade] the derived most recent grade and [address] the
    derived [addressString]: it has no [grades] property, its [address] is
    a string, and serialising it adds no property. Every body a handler
    sends is empty, a text, a message, one such representation or a list of
    them: no handler sends a record in another shape. *)
Theorem apiRepr_is_public_representation `{Mongoose} :
  (forall this,
     let repr := (apiRepr this).1 in
     repr = Obj [("id", Str (_id this));
                 ("name", str_value (name this));
                 ("cuisine", str_value (cuisine this));
                 ("borough", str_value (borough this));
                 ("grade", str_value (grade this).1);
                 ("address", Str (addressString this))] /\
     keys repr = ["id"; "name"; "cuisine"; "borough"; "grade"; "address"] /\
     ("grades" ∉ keys repr) /\
     ("grades" ∉ keys (toJSON repr)) /\
     member repr "address" = Str (addressString this) /\
     member (toJSON repr) "address" = Str (addressString this)) /\
  (forall req db out,
     out ∈ [get_restaurants req db; get_restaurants_id req db;
            post_restaurants req db; put_restaurants_id req db;
            delete_restaurants_id req db; not_found req db] ->
     public (payload (response out))).
Proof.
  split.
  - intros this repr. subst repr.
    assert ("grades" ∉ keys (apiRepr this).1) as Hno.
    { rewrite apiRepr_result. cbn [keys fmap list_fmap fst].
      rewrite !elem_of_cons, elem_of_nil.
      intros [? | [? | [? | [? | [? | [? | []]]]]]]; discriminate. }
    split; [apply apiRepr_result|]. split; [done|]. split; [done|].
    split; [by intros ?%keys_toJSON|]. split; [done|].
    rewrite apiRepr_result.
    by destruct (name this), (cuisine this), (borough this), (grade this).1.
  - intros req db out.
    rewrite !elem_of_cons, elem_of_nil.
    intros [-> | [-> | [-> | [-> | [-> | [-> | []]]]]]].
    + apply public_get_restaurants.
    + apply public_get_restaurants_id.
    + apply public_post_restaurants.
    + apply public_put_restaurants_id.
    + apply public_delete_restaurants_id.
    + constructor.
Qed.

Lemma apiRepr_is_public_representation_witness :
  public (payload (response (@put_restaurants_id plain rename_mismatch
                               [graded []]))).
Proof.
  apply (proj2 (@apiRepr_is_public_representation plain)
           rename_mismatch [graded []]).
  do 3 apply list_elem_of_further. apply list_elem_of_here.
Defined.

(** ** [trim] and the address string *)

Lemma trimStart_clean (s : string) : starts_clean (trimStart s).
Proof.
  induction s as [|c s IH]; simpl; [done|].
  by destruct (is_white c) eqn:Hc.
Qed.

Lemma trimStart_id (s : string) : starts_clean s -> trimStart s = s.
Proof. destruct s as [|c s]; simpl; [done|]. by intros ->. Qed.

Lemma trimEnd_clean (s : string) : starts_clean s -> starts_clean (trimEnd s).
Proof.
  destruct s as [|c s]; simpl; [done|]. intros Hc.
  destruct (trimEnd s); [by rewrite Hc | done].
Qed.

Lemma trimEnd_trimEnd (s : string) : trimEnd (trimEnd s) = trimEnd s.
Proof.
  induction s as [|c s IH]; simpl; [done|].
  destruct (trimEnd s) as [|c' r] eqn:Hr.
  - destruct (is_white c) eqn:Hc; simpl; [done | by rewrite Hc].
  - change (trimEnd (String c (String c' r))) with
      (match trimEnd (String c' r) with
       | EmptyString => if is_white c then "" else String c ""
       | r' => String c r'
       end).
    by rewrite IH.
Qed.

Lemma append_String (c : Ascii.ascii) (l t : string) :
  String c l +:+ t = String c (l +:+ t).
Proof. reflexivity. Qed.

Lemma trimStart_prefix (s : string) :
  exists l, s = l +:+ trimStart s /\ all_white l.
Proof.
  induction s as [|c s (l & Hl & Hw)]; simpl.
  - exists "". split; [done | constructor].
  - destruct (is_white c) eqn:Hc.
    + exists (String c l). split; [by rewrite append_String, <- Hl|].
      by constructor.
    + exists "". split; [done | constructor].
Qed.

Lemma trimEnd_suffix (s : string) :
  exists r, s = trimEnd s +:+ r /\ all_white r.
Proof.
  induction s as [|c s (r & Hr & Hw)]; simpl.
  - exists "". split; [done | constructor].
  - destruct (trimEnd s) as [|c' t] eqn:Ht.
    + destruct (is_white c) eqn:Hc.
      * exists (String c r). change ("" +:+ r) with r in Hr.
        split; [by rewrite Hr | by constructor].
      * exists r. change ("" +:+ r) with r in Hr.
        split; [by rewrite Hr | done].
    + exists r. split; [by rewrite append_String, <- Hr | done].
Qed.

(** [trim] strips white space, and only white space, from both ends. *)
Lemma trim_spec (s : string) :
  (exists l r, s = l +:+ trim s +:+ r /\ all_white l /\ all_white r) /\
  trimStart (trim s) = trim s /\
  trimEnd (trim s) = trim s.
Proof.
  unfold trim. repeat split.
  - destruct (trimStart_prefix s) as (l & Hl & Hwl).
    destruct (trimEnd_suffix (trimStart s)) as (r & Hr & Hwr).
    exists l, r. by rewrite <- Hr, <- Hl.
  - apply trimStart_id, trimEnd_clean, trimStart_clean.
  - apply trimEnd_trimEnd.
Qed.

Lemma addressString_strings (this : Restaurant) (b s : string) :
  building (address this) = Val b -> street (address this) = Val s ->
  addressString this = trim (b +:+ " " +:+ s).
Proof. unfold addressString. by intros -> ->. Qed.

Lemma addressString_no_address (this : Restaurant) :
  building (address this) = Undef -> street (address this) = Undef ->
  addressString this = "undefined undefined".
Proof. unfold addressString. by intros -> ->. Qed.

(** ** Create, then get *)

Section CreateThenGet.
Context `{Mongoose}.

Lemma list_find_last (id : string) (db : list Restaurant) (doc : Restaurant) :
  id ∉ _id <$> db -> _id doc = id ->
  list_find (fun d => _id d = id) (db ++ [doc]) = Some (length db, doc).
Proof.
  intros Hfresh Hid. rewrite list_find_app_r.
  - cbn. by rewrite decide_True by done.
  - apply list_find_None, Forall_forall. intros d Hd Heq. apply Hfresh.
    apply list_elem_of_fmap. by exists d.
Qed.

Lemma findById_last (id : string) (db : list Restaurant) (doc : Restaurant) :
  validId id = true -> id ∉ _id <$> db -> _id doc = id ->
  findById id (db ++ [doc]) = Some doc.
Proof.
  intros Hv Hfresh Hid. apply findById_find. split; [done|].
  exists (length db). by apply list_find_last.
Qed.

Lemma create_abc (db : list Restaurant) :
  create (create_argument (body abc)) db =
    let doc := {| _id := newId (_id <$> db); name := Val "A";
                  borough := Val "B"; cuisine := Val "C";
                  address := {| building := Undef; coord := [];
                                street := Undef; zipcode := Undef |};
                  grades := [] |} in
    (Resolved {| record := doc; has_grades := true |}, db ++ [doc]).
Proof.
  unfold create.
  change (prop (create_argument (body abc)) "name") with (Str "A").
  change (prop (create_argument (body abc)) "borough") with (Str "B").
  change (prop (create_argument (body abc)) "cuisine") with (Str "C").
  change (prop (create_argument (body abc)) "address") with Undefined.
  change (prop (create_argument (body abc)) "grades") with Undefined.
  by rewrite !castString_Str, castAddress_Undefined, castGrades_Undefined.
Qed.
End CreateThenGet.

(** C9. The derived [addressString] is the trimmed [building], a space and
    [street] where both are strings; a part that is missing is rendered as
    the word [undefined]. Creating [{name: "A", borough: "B", cuisine: "C"}]
    without an address and then getting the record by its id therefore
    yields the address ["undefined undefined"], not the empty string. *)
Theorem addressString_of_created_record `{Mongoose} (db : list Restaurant) :
  let created := post_restaurants abc db in
  let id := newId (_id <$> db) in
  let repr :=
    Obj [("id", Str id); ("name", Str "A"); ("cuisine", Str "C");
         ("borough", Str "B"); ("address", Str "undefined undefined")] in
  (forall this b s,
     building (address this) = Val b -> street (address this) = Val s ->
     addressString this = trim (b +:+ " " +:+ s)) /\
  response created = {| status := 201; payload := Json repr |} /\
  (exists doc,
     collection created = db ++ [doc] /\ _id doc = id /\
     addressString doc = "undefined undefined" /\ addressString doc <> "") /\
  response (get_restaurants_id (by_id id) (collection created)) =
    {| status := 200; payload := Json repr |}.
Proof.
  intros created id repr. subst created id repr.
  split; [apply addressString_strings|].
  rewrite post_restaurants_unfold.
  change (List.find _ requiredFields) with (@None string).
  rewrite create_abc. cbn zeta. cbn [has_grades record].
  split; [done|]. split.
  - eexists. split; [reflexivity|]. by repeat split.
  - cbn [collection]. unfold get_restaurants_id. cbn [params_id by_id].
    rewrite findById_last;
      [done | apply newId_valid | apply newId_fresh | done].
Qed.

Lemma addressString_of_created_record_witness :
  addressString (graded []) = trim ("1" +:+ " " +:+ "Main St").
Proof.
  apply (proj1 (@addressString_of_created_record plain []) (graded []));
    reflexivity.
Defined.

(** ** Create, then update with another id in the body *)

Section Mismatch.
Context `{Mongoose}.

Lemma body_rename_with (id : string) (wrong : value) :
  body (rename_with id wrong) !! "id" = Some wrong /\
  body (rename_with id wrong) !! "name" = Some (Str "Z") /\
  body (rename_with id wrong) !! "borough" = None /\
  body (rename_with id wrong) !! "cuisine" = None /\
  body (rename_with id wrong) !! "address" = None.
Proof.
  unfold rename_with, with_body. cbn [body].
  split; [by rewrite lookup_insert_eq|].
  rewrite !lookup_insert_ne by done.
  split; [by rewrite lookup_singleton_eq|].
  by rewrite !lookup_singleton_ne by done.
Qed.

Lemma castUpdate_rename_with (id : string) (wrong : value) :
  castUpdate (build_toUpdate (body (rename_with id wrong))) = Some to_Z.
Proof.
  destruct (body_rename_with id wrong) as (_ & Hn & Hb & Hc & Ha).
  unfold castUpdate, castPath. rewrite !build_toUpdate_lookup.
  change (bool_decide ("name" ∈ updateableFields)) with true.
  change (bool_decide ("borough" ∈ updateableFields)) with true.
  change (bool_decide ("cuisine" ∈ updateableFields)) with true.
  change (bool_decide ("address" ∈ updateableFields)) with true.
  cbn iota. rewrite Hn, Hb, Hc, Ha. cbn. by rewrite castString_Str.
Qed.

Lemma ids_match_rename_with (id : string) (wrong : value) :
  wrong <> Str id -> ids_match (rename_with id wrong) = false.
Proof.
  intros Hwrong. apply not_true_is_false. intros Hm.
  apply ids_match_true in Hm as [_ Hm].
  destruct (body_rename_with id wrong) as (Hid & _).
  rewrite Hid in Hm. cbn in Hm. congruence.
Qed.
End Mismatch.

(** C4 does not hold of the handler. Of a record created by the service,
    an update under its id whose body names another id is answered 400
    with the message that names both ids; and the handler, which does not
    return there, still runs the update: the stored record is renamed. *)
Theorem put_restaurants_id_mismatch_updates `{Mongoose}
    (db : list Restaurant) (wrong : value) :
  let id := newId (_id <$> db) in
  let created :=
    {| _id := id; name := Val "A"; borough := Val "B"; cuisine := Val "C";
       address := {| building := Undef; coord := []; street := Undef;
                     zipcode := Undef |};
       grades := [] |} in
  let stored := collection (post_restaurants abc db) in
  let out := put_restaurants_id (rename_with id wrong) stored in
  wrong <> Str id ->
  stored = db ++ [created] /\
  ids_match (rename_with id wrong) = false /\
  response out =
    {| status := 400;
       payload :=
         Json (Obj [("message",
                     Str (mismatch_message (rename_with id wrong)))]) |} /\
  collection out = db ++ [applyUpdate to_Z created] /\
  name (applyUpdate to_Z created) = Val "Z" /\
  collection out <> stored.
Proof.
  intros id created stored out Hwrong.
  assert (stored = db ++ [created]) as Hstored.
  { subst stored. rewrite post_restaurants_unfold.
    change (List.find _ requiredFields) with (@None string).
    by rewrite create_abc. }
  assert (collection out = db ++ [applyUpdate to_Z created]) as Hout.
  { subst out. rewrite collection_put_restaurants_id, Hstored.
    assert (validId id = true) as Hvalid by apply newId_valid.
    unfold findByIdAndUpdate. cbn [params_id rename_with with_body].
    rewrite Hvalid, castUpdate_rename_with.
    rewrite (list_find_last id db created);
      [|apply newId_fresh | done].
    cbn [snd]. rewrite insert_app_r_alt by done.
    by rewrite Nat.sub_diag. }
  split; [done|]. split; [by apply ids_match_rename_with|].
  split.
  - subst out. by apply put_restaurants_id_mismatch, ids_match_rename_with.
  - split; [done|]. split; [done|].
    rewrite Hout, Hstored. intros Heq%app_inv_head. discriminate.
Qed.

Lemma put_restaurants_id_mismatch_updates_witness :
  name <$> collection (@post_restaurants plain abc []) = [Val "A"] /\
  status (response (@put_restaurants_id plain
            (rename_with (Plain.newId []) (Str "1"))
            (collection (@post_restaurants plain abc [])))) = 400 /\
  name <$> collection (@put_restaurants_id plain
             (rename_with (Plain.newId []) (Str "1"))
             (collection (@post_restaurants plain abc []))) = [Val "Z"].
Proof.
  destruct (@put_restaurants_id_mismatch_updates plain [] (Str "1"))
    as (Hstored & _ & Hresponse & Hout & _); [discriminate|].
  split; [exact (f_equal (fmap name) Hstored)|].
  split; [exact (f_equal status Hresponse)|].
  exact (f_equal (fmap name) Hout).
Defined.

(** * Further properties of the handlers *)

(** ** Looking a document up by its id *)

Lemma list_find_id_split (id : string) (db : list Restaurant) (i : nat)
    (d : Restaurant) :
  list_find (fun d => _id d = id) db = Some (i, d) ->
  db = take i db ++ d :: drop (S i) db /\
  _id d = id /\
  forall e, e ∈ take i db -> _id e <> id.
Proof.
  intros (Hi & Hid & Hbefore)%list_find_Some.
  split; [by rewrite take_drop_middle|]. split; [done|].
  intros e (j & Hj & Hlt)%elem_of_take. by eapply Hbefore.
Qed.

Section Found.
Context `{Mongoose}.

Lemma findById_unique (db : list Restaurant) (d : Restaurant) :
  NoDup (_id <$> db) -> d ∈ db -> validId (_id d) = true ->
  findById (_id d) db = Some d.
Proof.
  intros Hnd Hd Hv. apply findById_find. split; [done|].
  destruct (list_find (fun e => _id e = _id d) db) as [[i e]|] eqn:Hf.
  - exists i. apply list_find_Some in Hf as (Hi & Hid & Hbefore).
    apply list_elem_of_lookup_1 in Hd as [j Hj].
    assert (i = j) as ->.
    { eapply NoDup_lookup; [exact Hnd | |];
        rewrite list_lookup_fmap; [by rewrite Hi | by rewrite Hj; cbn; f_equal]. }
    do 2 f_equal. congruence.
  - apply list_find_None in Hf. rewrite Forall_forall in Hf.
    by destruct (Hf d Hd).
Qed.
End Found.

(** X15. Where the ids of the collection are distinct, getting a stored
    document by its id is answered 200 with the public representation of
    that document, and leaves the collection as it is. This is so for an
    id that the store takes for one, as every id is that the store has
    given; a document stored under another key cannot be got, its id is
    refused by the cast and the answer is 500. *)
Theorem get_restaurants_id_found `{Mongoose} (req : Request)
    (db : list Restaurant) (d : Restaurant) :
  NoDup (_id <$> db) -> d ∈ db -> params_id req = _id d ->
  response (get_restaurants_id req db) =
    (if validId (_id d)
     then {| status := 200; payload := Json (toJSON (apiRepr d).1) |}
     else {| status := 500;
             payload :=
               Json (Obj [("message", Str "Internal server error")]) |}) /\
  collection (get_restaurants_id req db) = db /\
  documents (get_restaurants_id req db) =
    (if validId (_id d) then [(apiRepr d).2] else []).
Proof.
  intros Hnd Hd Hid. unfold get_restaurants_id. rewrite Hid.
  destruct (validId (_id d)) eqn:Hv.
  - by rewrite (findById_unique db d Hnd Hd Hv).
  - assert (findById (_id d) db = None) as ->; [|done].
    apply findById_None. by left.
Qed.

Lemma get_restaurants_id_found_witness :
  response (@get_restaurants_id plain (by_id oid) [graded [entry 10 "C"]]) =
    {| status := 200;
       payload := Json (toJSON (apiRepr (graded [entry 10 "C"])).1) |} /\
  collection (@get_restaurants_id plain (by_id oid) [graded [entry 10 "C"]]) =
    [graded [entry 10 "C"]] /\
  documents (@get_restaurants_id plain (by_id oid) [graded [entry 10 "C"]]) =
    [(apiRepr (graded [entry 10 "C"])).2].
Proof.
  apply (@get_restaurants_id_found plain (by_id oid)
           [graded [entry 10 "C"]] (graded [entry 10 "C"])).
  - apply NoDup_singleton.
  - apply list_elem_of_here.
  - reflexivity.
Defined.

(** ** The delete handler *)

Section Delete.
Context `{Mongoose}.

Lemma delete_restaurants_id_unfold (req : Request) (db : list Restaurant) :
  delete_restaurants_id req db =
    if validId (params_id req) then
      {| response := end_ 204;
         collection :=
           match list_find (fun d => _id d = params_id req) db with
           | Some (i, _) => delete i db
           | None => db
           end;
         documents := [] |}
    else
      {| response := internal_server_error; collection := db;
         documents := [] |}.
Proof.
  unfold delete_restaurants_id, findByIdAndRemove.
  destruct (validId _); [|done].
  by destruct (list_find _ db) as [[i d]|].
Qed.

Lemma delete_restaurants_id_gone (req : Request) (db : list Restaurant) :
  NoDup (_id <$> db) ->
  findById (params_id req) (collection (delete_restaurants_id req db)) = None.
Proof.
  intros Hnd. rewrite delete_restaurants_id_unfold.
  destruct (validId (params_id req)) eqn:Hv; cbn [collection];
    [|apply findById_None; by left].
  apply findById_None. right.
  destruct (list_find _ db) as [[i d]|] eqn:Hf.
  - apply list_find_id_split in Hf as (Hdb & Hid & Hbefore).
    intros e He.
    rewrite delete_take_drop in He. apply elem_of_app in He as [He | He];
      [by apply Hbefore|].
    rewrite Hdb, fmap_app, fmap_cons in Hnd.
    apply NoDup_app in Hnd as (_ & _ & Hnd).
    apply NoDup_cons in Hnd as [Hnotin _].
    intros Heq. apply Hnotin. rewrite Hid, <- Heq.
    apply list_elem_of_fmap. by exists e.
  - apply list_find_None in Hf. rewrite Forall_forall in Hf. exact Hf.
Qed.
End Delete.

(** X1. A delete request whose path id the store takes for an id is
    answered 204 with no body whether or not a document has the id: it
    removes the first document with that id and nothing else, the others
    staying in their order, and with no such document it leaves the
    collection as it is. A path id the store cannot cast is answered 500
    with the generic message, and nothing is removed. *)
Theorem delete_restaurants_id_removes `{Mongoose} (req : Request)
    (db : list Restaurant) :
  let out := delete_restaurants_id req db in
  documents out = [] /\
  (validId (params_id req) = false ->
   response out =
     {| status := 500;
        payload := Json (Obj [("message", Str "Internal server error")]) |} /\
   collection out = db) /\
  (validId (params_id req) = true ->
   response out = {| status := 204; payload := Empty |} /\
   ((forall d, d ∈ db -> _id d <> params_id req) -> collection out = db) /\
   (forall found, findById (params_id req) db = Some found ->
    exists before after,
      db = before ++ found :: after /\
      collection out = before ++ after /\
      forall d, d ∈ before -> _id d <> params_id req)).
Proof.
  intros out. subst out. rewrite delete_restaurants_id_unfold.
  split; [by destruct (validId _)|]. split; [by intros ->|].
  intros Hv. rewrite Hv. cbn [response collection]. split; [done|]. split.
  - intros Hnone.
    assert (list_find (fun d => _id d = params_id req) db = None) as ->; [|done].
    by apply list_find_None, Forall_forall.
  - intros found (_ & i & Hf)%findById_find. rewrite Hf.
    apply list_find_id_split in Hf as (Hdb & _ & Hbefore).
    exists (take i db), (drop (S i) db).
    by rewrite delete_take_drop.
Qed.

Lemma delete_restaurants_id_removes_witness :
  (response (@delete_restaurants_id plain (by_id "7") [graded []]) =
     {| status := 500;
        payload := Json (Obj [("message", Str "Internal server error")]) |} /\
   collection (@delete_restaurants_id plain (by_id "7") [graded []]) =
     [graded []]) /\
  response (@delete_restaurants_id plain (by_id oid) [graded []]) =
    {| status := 204; payload := Empty |}.
Proof.
  split.
  - apply (proj1 (proj2 (@delete_restaurants_id_removes plain (by_id "7")
                           [graded []]))).
    reflexivity.
  - apply (proj2 (proj2 (@delete_restaurants_id_removes plain (by_id oid)
                           [graded []]))).
    reflexivity.
Defined.

(** X2. Where the ids of the collection are distinct, no document can be
    found under the id once it was deleted. A second delete changes
    nothing and is answered as the first was, 204 again for an id the
    store takes for one and 500 again for one it cannot cast; a get of the
    id is answered 500. *)
Theorem delete_restaurants_id_idempotent `{Mongoose} (req : Request)
    (db : list Restaurant) :
  NoDup (_id <$> db) ->
  let once := collection (delete_restaurants_id req db) in
  findById (params_id req) once = None /\
  collection (delete_restaurants_id req once) = once /\
  response (delete_restaurants_id req once) =
    response (delete_restaurants_id req db) /\
  (validId (params_id req) = true ->
   status (response (delete_restaurants_id req once)) = 204) /\
  status (response (get_restaurants_id req once)) = 500.
Proof.
  intros Hnd once.
  pose proof (delete_restaurants_id_gone req db Hnd) as Hgone. fold once in Hgone.
  split; [done|].
  assert (validId (params_id req) = true ->
          list_find (fun d => _id d = params_id req) once = None) as Hfind.
  { intros Hv. apply findById_None in Hgone as [Hgone | Hgone]; [congruence|].
    by apply list_find_None, Forall_forall. }
  rewrite !(delete_restaurants_id_unfold req once).
  rewrite (delete_restaurants_id_unfold req db).
  destruct (validId (params_id req)) eqn:Hv; cbn [response collection status].
  - rewrite (Hfind eq_refl). repeat split; try done.
    unfold get_restaurants_id. by rewrite Hgone.
  - repeat split; try done.
    unfold get_restaurants_id. by rewrite Hgone.
Qed.

Lemma delete_restaurants_id_idempotent_witness :
  status (response (@delete_restaurants_id plain (by_id oid)
            (collection (@delete_restaurants_id plain (by_id oid)
                           [graded []])))) = 204.
Proof.
  apply (proj1 (proj2 (proj2 (proj2
           (@delete_restaurants_id_idempotent plain (by_id oid) [graded []]
              (NoDup_singleton _))))));
    reflexivity.
Defined.

(** ** The create handler, further *)

Section Create.
Context `{Mongoose}.

Lemma collection_post_restaurants (req : Request) (db : list Restaurant) :
  (status (response (post_restaurants req db)) <> 201 /\
   collection (post_restaurants req db) = db) \/
  (exists doc,
     (response (post_restaurants req db) = json 201 (apiRepr doc).1 \/
      response (post_restaurants req db) = internal_server_error) /\
     collection (post_restaurants req db) = db ++ [doc] /\
     _id doc = newId (_id <$> db) /\ complete doc).
Proof.
  rewrite post_restaurants_unfold.
  destruct (List.find _ requiredFields); [by left|].
  destruct (create _ db) as [[made|] db'] eqn:Hc.
  - right. exists (record made).
    apply create_Resolved in Hc as (-> & ? & _ & _ & _ & _ & _ & ?).
    destruct (has_grades made); cbn [response collection]; auto.
  - left. by apply create_Rejected in Hc as ->.
Qed.

Lemma missing_required_field (b : gmap string value) :
  is_Some (List.find (fun field => negb (has_key b field)) requiredFields) <->
  exists field, field ∈ requiredFields /\ b !! field = None.
Proof.
  split.
  - intros [field Hf]. apply find_some in Hf as [Hin Hk].
    exists field. split; [by apply list_elem_of_In|].
    by apply has_key_false, negb_true_iff.
  - intros (field & Hin & Hk).
    destruct (List.find _ requiredFields) as [f|] eqn:Hf; [by exists f|].
    apply list_elem_of_In in Hin. apply (find_none _ _ Hf field) in Hin.
    apply has_key_false in Hk. by rewrite Hk in Hin.
Qed.
End Create.

(** X3. The create handler answers 400 exactly when one of [name],
    [borough], [cuisine] is not a key of the body; it answers 201 or 500
    otherwise. *)
Theorem post_restaurants_400 `{Mongoose} (req : Request)
    (db : list Restaurant) :
  (status (response (post_restaurants req db)) = 400 <->
   exists field, field ∈ requiredFields /\ body req !! field = None) /\
  (status (response (post_restaurants req db)) = 400 \/
   status (response (post_restaurants req db)) = 201 \/
   status (response (post_restaurants req db)) = 500).
Proof.
  rewrite <- missing_required_field, post_restaurants_unfold.
  destruct (List.find _ requiredFields) as [field|].
  - split; [|by left]. split; [by eexists | done].
  - destruct (create _ db) as [[made|] db']; [destruct (has_grades made)|];
      cbn.
    + split; [|by right; left]. split; [done | by intros [? ?]].
    + split; [|by right; right]. split; [done | by intros [? ?]].
    + split; [|by right; right]. split; [done | by intros [? ?]].
Qed.

(** X4. The create handler reads the five keys [name], [borough],
    [cuisine], [grades] and [address] of the body and nothing else of the
    request: an [id] or any other key a client sends changes neither the
    response nor what is stored. *)
Theorem post_restaurants_reads_five_keys `{Mongoose} (req req' : Request)
    (db : list Restaurant) :
  (forall k, k ∈ ["name"; "borough"; "cuisine"; "grades"; "address"] ->
             body req' !! k = body req !! k) ->
  post_restaurants req' db = post_restaurants req db.
Proof.
  intros Hsame.
  assert (forall k, k ∈ ["name"; "borough"; "cuisine"; "grades"; "address"] ->
                    prop (body req') k = prop (body req) k) as Hprop.
  { intros k Hk. unfold prop. by rewrite Hsame. }
  assert (forall k, k ∈ ["name"; "borough"; "cuisine"; "grades"; "address"] ->
                    has_key (body req') k = has_key (body req) k) as Hkey.
  { intros k Hk. unfold has_key. by rewrite Hsame. }
  rewrite !post_restaurants_unfold. unfold requiredFields, create_argument.
  cbn [List.find].
  rewrite !Hkey, !Hprop by (rewrite !elem_of_cons; auto 10).
  reflexivity.
Qed.

Lemma post_restaurants_reads_five_keys_witness :
  @post_restaurants plain
    (with_body "" {[ "name" := Str "A"; "borough" := Str "B";
                     "cuisine" := Str "C"; "id" := Str "7" ]}) [] =
  @post_restaurants plain abc [].
Proof.
  apply (@post_restaurants_reads_five_keys plain abc).
  intros k Hk. rewrite !elem_of_cons, elem_of_nil in Hk.
  destruct Hk as [-> | [-> | [-> | [-> | [-> | []]]]]]; reflexivity.
Defined.

(** X5. The create handler never touches a stored document: the collection
    afterwards is the one before, with at most one document appended. Its
    id differs from every id in use, and it holds a non-empty [name],
    [borough] and [cuisine]: distinct ids stay distinct, and a collection
    of complete records stays one. *)
Theorem post_restaurants_appends `{Mongoose} (req : Request)
    (db : list Restaurant) :
  let db' := collection (post_restaurants req db) in
  (db' = db \/
   exists doc, db' = db ++ [doc] /\ (_id doc ∉ _id <$> db) /\ complete doc) /\
  (NoDup (_id <$> db) -> NoDup (_id <$> db')) /\
  (Forall complete db -> Forall complete db').
Proof.
  intros db'. subst db'.
  destruct (collection_post_restaurants req db)
    as [[_ ->] | (doc & _ & -> & Hid & Hc)].
  - split; [by left|]. by split.
  - assert (_id doc ∉ _id <$> db) as Hfresh
      by (rewrite Hid; apply newId_fresh).
    split; [right; by exists doc|]. split.
    + intros Hnd. rewrite fmap_app. apply NoDup_app. split; [done|].
      split; [|apply NoDup_singleton].
      intros x Hx ->%list_elem_of_singleton. done.
    + intros Hall. apply Forall_app. split; [done|]. by constructor.
Qed.

Lemma post_restaurants_appends_witness :
  NoDup (_id <$> collection (@post_restaurants plain abc [graded []])).
Proof.
  apply (proj1 (proj2 (@post_restaurants_appends plain abc [graded []]))).
  apply NoDup_singleton.
Defined.

(** X6. What a create request was answered with 201 is what a get of the
    new id is answered with, as 200. *)
Theorem post_then_get `{Mongoose} (req get : Request) (db : list Restaurant) :
  status (response (post_restaurants req db)) = 201 ->
  params_id get = newId (_id <$> db) ->
  let db' := collection (post_restaurants req db) in
  status (response (get_restaurants_id get db')) = 200 /\
  payload (response (get_restaurants_id get db')) =
    payload (response (post_restaurants req db)) /\
  collection (get_restaurants_id get db') = db'.
Proof.
  intros Hcreated Hid db'. subst db'.
  destruct (collection_post_restaurants req db)
    as [[Hne _] | (doc & [Hr | Hr] & Hc & Hnew & _)]; [done| |];
    [|by rewrite Hr in Hcreated].
  rewrite Hr, Hc. unfold get_restaurants_id.
  rewrite Hid, findById_last;
    [done | apply newId_valid | apply newId_fresh | done].
Qed.

Lemma post_then_get_witness :
  status (response (@get_restaurants_id plain (by_id (Plain.newId []))
            (collection (@post_restaurants plain abc [])))) = 200 /\
  payload (response (@get_restaurants_id plain (by_id (Plain.newId []))
             (collection (@post_restaurants plain abc [])))) =
    payload (response (@post_restaurants plain abc [])) /\
  collection (@get_restaurants_id plain (by_id (Plain.newId []))
                (collection (@post_restaurants plain abc []))) =
    collection (@post_restaurants plain abc []).
Proof.
  apply (@post_then_get plain abc (by_id (Plain.newId [])) []); reflexivity.
Defined.

(** ** The update handler, further *)

Section UpdateFurther.
Context `{Mongoose}.

Lemma castPath_Some {A} (cast : value -> option A) upd k r v :
  castPath cast upd k = Some r -> upd !! k = Some v ->
  exists a, cast v = Some a /\ r = Some a.
Proof.
  unfold castPath. intros Hc Hk. rewrite Hk in Hc.
  destruct (cast v) as [a|]; [|done]. exists a. split; [done|].
  by injection Hc.
Qed.

Lemma castUpdate_sets upd u :
  castUpdate upd = Some u ->
  (forall v, upd !! "name" = Some v ->
     exists n, castString v = Some n /\ set_name u = Some n) /\
  (forall v, upd !! "borough" = Some v ->
     exists b, castString v = Some b /\ set_borough u = Some b) /\
  (forall v, upd !! "cuisine" = Some v ->
     exists c, castString v = Some c /\ set_cuisine u = Some c) /\
  (forall v, upd !! "address" = Some v ->
     exists a, castAddress v = Some a /\ set_address u = Some a).
Proof.
  unfold castUpdate. intros Hu.
  destruct (castPath castString upd "name") as [n|] eqn:Hn; [|done].
  destruct (castPath castString upd "borough") as [b|] eqn:Hb; [|done].
  destruct (castPath castString upd "cuisine") as [c|] eqn:Hc; [|done].
  destruct (castPath castAddress upd "address") as [a|] eqn:Ha; [|done].
  simpl in Hu. injection Hu as <-. cbn.
  repeat split; intros v Hv.
  - destruct (castPath_Some _ _ _ _ _ Hn Hv) as (x & -> & ->). by exists x.
  - destruct (castPath_Some _ _ _ _ _ Hb Hv) as (x & -> & ->). by exists x.
  - destruct (castPath_Some _ _ _ _ _ Hc Hv) as (x & -> & ->). by exists x.
  - destruct (castPath_Some _ _ _ _ _ Ha Hv) as (x & -> & ->). by exists x.
Qed.

Lemma findById_insert (id : string) (db : list Restaurant) (i : nat)
    (d d' : Restaurant) :
  validId id = true ->
  list_find (fun d => _id d = id) db = Some (i, d) -> _id d' = id ->
  findById id (<[i := d']> db) = Some d'.
Proof.
  intros Hv (Hi & Hid & Hbefore)%list_find_Some Hid'.
  apply findById_find. split; [done|]. exists i.
  apply list_find_Some. split; [|split; [done|]].
  - apply list_lookup_insert_eq. by eapply lookup_lt_Some.
  - intros j y Hj Hlt. rewrite list_lookup_insert_ne in Hj by lia.
    by eapply Hbefore.
Qed.
End UpdateFurther.

(** X7. The update handler answers 400 exactly when the id check fails,
    which is unless the path id is not empty and the body holds that very
    string under [id]: a body without [id], or with the id as a number,
    is answered 400. Otherwise it answers 202 or 500. *)
Theorem put_restaurants_id_400 `{Mongoose} (req : Request)
    (db : list Restaurant) :
  (status (response (put_restaurants_id req db)) = 400 <->
   ~ (params_id req <> "" /\
      body req !! "id" = Some (Str (params_id req)))) /\
  (status (response (put_restaurants_id req db)) = 400 \/
   status (response (put_restaurants_id req db)) = 202 \/
   status (response (put_restaurants_id req db)) = 500).
Proof.
  rewrite <- ids_match_true, put_restaurants_id_unfold.
  destruct (ids_match req); cbn [negb];
    destruct (findByIdAndUpdate _ _ db) as [[[d|]|] db']; cbn;
    (split; [split | auto]);
    first [ discriminate | intros _; discriminate | reflexivity
          | intros Hn; by destruct Hn ].
Qed.

(** X8. The update handler reads the path id and the keys [id], [name],
    [borough], [cuisine] and [address] of the body, and nothing else of the
    request: a [grades] key or any other key changes neither the response
    nor what is stored. *)
Theorem put_restaurants_id_reads `{Mongoose} (req req' : Request)
    (db : list Restaurant) :
  params_id req' = params_id req ->
  (forall k, k ∈ ["id"; "name"; "borough"; "cuisine"; "address"] ->
             body req' !! k = body req !! k) ->
  put_restaurants_id req' db = put_restaurants_id req db.
Proof.
  intros Hid Hsame.
  assert (build_toUpdate (body req') = build_toUpdate (body req)) as Hupd.
  { apply map_eq. intros k. rewrite !build_toUpdate_lookup.
    case_bool_decide as Hk; [|done]. apply Hsame.
    unfold updateableFields in Hk. by apply elem_of_cons; right. }
  rewrite !put_restaurants_id_unfold.
  unfold ids_match, mismatch_message, prop.
  rewrite Hid, Hupd, (Hsame "id") by (apply elem_of_cons; auto).
  reflexivity.
Qed.

Lemma put_restaurants_id_reads_witness :
  @put_restaurants_id plain
    (with_body oid {[ "id" := Str oid; "name" := Str "Z";
                      "grades" := Arr [] ]}) [graded [entry 10 "C"]] =
  @put_restaurants_id plain rename [graded [entry 10 "C"]].
Proof.
  apply (@put_restaurants_id_reads plain rename); [reflexivity|].
  intros k Hk. rewrite !elem_of_cons, elem_of_nil in Hk.
  destruct Hk as [-> | [-> | [-> | [-> | [-> | []]]]]]; reflexivity.
Defined.

(** X9. An update that finds no document with the path id, or whose values
    the store cannot cast, changes nothing: the collection is as before,
    and the answer is 500, or the 400 of a failed id check. The ids of the
    collection are never changed by an update. *)
Theorem put_restaurants_id_no_update `{Mongoose} (req : Request)
    (db : list Restaurant) :
  (findById (params_id req) db = None \/
   castUpdate (build_toUpdate (body req)) = None ->
   collection (put_restaurants_id req db) = db /\
   documents (put_restaurants_id req db) = [] /\
   response (put_restaurants_id req db) =
     if ids_match req then internal_server_error
     else json 400 (Obj [("message", Str (mismatch_message req))])) /\
  _id <$> collection (put_restaurants_id req db) = _id <$> db.
Proof.
  split.
  - intros Hno. rewrite put_restaurants_id_unfold. unfold findByIdAndUpdate.
    destruct (validId (params_id req)) eqn:Hv;
      [|by destruct (ids_match req)].
    destruct (castUpdate _) as [u|].
    + destruct Hno as [Hno | Hno]; [|done].
      unfold findById in Hno. rewrite Hv in Hno.
      apply fmap_None in Hno. rewrite Hno.
      by destruct (ids_match req).
    + by destruct (ids_match req).
  - rewrite collection_put_restaurants_id. unfold findByIdAndUpdate.
    destruct (validId (params_id req)); [|done].
    destruct (castUpdate _) as [u|]; [|done].
    destruct (list_find _ db) as [[i d]|] eqn:Hf; [|done].
    cbn [snd]. rewrite list_fmap_insert. apply list_insert_id.
    apply list_find_Some in Hf as (Hi & _). by rewrite list_lookup_fmap, Hi.
Qed.

Lemma put_restaurants_id_no_update_witness :
  collection (@put_restaurants_id plain rename []) = [] /\
  documents (@put_restaurants_id plain rename []) = [] /\
  response (@put_restaurants_id plain rename []) =
    if ids_match rename then internal_server_error
    else json 400 (Obj [("message", Str (mismatch_message rename))]).
Proof.
  apply (proj1 (@put_restaurants_id_no_update plain rename [])).
  left. reflexivity.
Defined.

(** X10. After an update that found its document and whose values the
    store could cast, a get of the same id is answered 200 with the
    public representation of the updated document: each of [name],
    [borough], [cuisine], [address] that is a key of the body holds the
    cast of the body's value, whether or not the id check had passed. *)
Theorem put_then_get `{Mongoose} (req : Request) (db : list Restaurant)
    (found : Restaurant) (u : Update) :
  findById (params_id req) db = Some found ->
  castUpdate (build_toUpdate (body req)) = Some u ->
  let db' := collection (put_restaurants_id req db) in
  let updated := applyUpdate u found in
  response (get_restaurants_id req db') =
    {| status := 200; payload := Json (toJSON (apiRepr updated).1) |} /\
  (forall v, body req !! "name" = Some v ->
             castString v = Some (name updated)) /\
  (forall v, body req !! "borough" = Some v ->
             castString v = Some (borough updated)) /\
  (forall v, body req !! "cuisine" = Some v ->
             castString v = Some (cuisine updated)) /\
  (forall v, body req !! "address" = Some v ->
             castAddress v = Some (address updated)).
Proof.
  intros Hf Hu db' updated. subst db' updated.
  split.
  - rewrite collection_put_restaurants_id. unfold findByIdAndUpdate.
    apply findById_find in Hf as (Hv & i & Hf).
    rewrite Hv, Hu, Hf. cbn [snd].
    unfold get_restaurants_id.
    rewrite (findById_insert _ _ _ _ _ Hv Hf); [done|].
    by apply list_find_Some in Hf as (_ & ? & _).
  - apply castUpdate_sets in Hu as (Hn & Hb & Hc & Ha).
    rewrite !build_toUpdate_lookup in Hn, Hb, Hc, Ha.
    cbn in Hn, Hb, Hc, Ha.
    repeat split; intros v Hv; cbn.
    + by destruct (Hn v Hv) as (x & -> & ->).
    + by destruct (Hb v Hv) as (x & -> & ->).
    + by destruct (Hc v Hv) as (x & -> & ->).
    + by destruct (Ha v Hv) as (x & -> & ->).
Qed.

Lemma put_then_get_witness :
  response (@get_restaurants_id plain rename
              (collection (@put_restaurants_id plain rename [graded []]))) =
    {| status := 200;
       payload :=
         Json (toJSON (apiRepr
                 (applyUpdate {| set_name := Some (Val "Z");
                                 set_borough := None; set_cuisine := None;
                                 set_address := None |} (graded []))).1) |}.
Proof.
  apply (proj1 (@put_then_get plain rename [graded []] (graded [])
                  {| set_name := Some (Val "Z"); set_borough := None;
                     set_cuisine := None; set_address := None |}
                  eq_refl eq_refl)).
Defined.

(** ** The virtuals, further *)

(** X11. Projecting a document that was projected before gives the same
    public representation and leaves the document as it is: the sort that
    [grade] does in place is done once. *)
Theorem apiRepr_again (this : Restaurant) :
  grade (grade this).2 = ((grade this).1, (grade this).2) /\
  apiRepr (apiRepr this).2 = ((apiRepr this).1, (apiRepr this).2).
Proof.
  assert (sort by_date_desc (sort by_date_desc (grades this)) =
          sort by_date_desc (grades this)) as Hs
    by apply sort_id, sort_by_date_Sorted.
  unfold apiRepr, grade, addressString.
  cbn [fst snd set_grades grades _id name borough cuisine address].
  by rewrite Hs.
Qed.

Lemma trimEnd_String (c : Ascii.ascii) (s : string) :
  trimEnd (String c s) =
    match trimEnd s with
    | EmptyString => if is_white c then "" else String c ""
    | r => String c r
    end.
Proof. reflexivity. Qed.

Lemma trimEnd_space (s : string) : trimEnd (s +:+ " ") = trimEnd s.
Proof.
  induction s as [|c s IH]; [done|].
  by rewrite append_String, !trimEnd_String, IH.
Qed.

Lemma trimStart_space (s : string) :
  trimStart (s +:+ " ") =
    match trimStart s with
    | EmptyString => ""
    | r => r +:+ " "
    end.
Proof.
  induction s as [|c s IH]; [done|].
  rewrite append_String. cbn [trimStart].
  destruct (is_white c); [exact IH | done].
Qed.

Lemma trim_space_r (s : string) : trim (s +:+ " ") = trim s.
Proof.
  unfold trim. rewrite trimStart_space.
  destruct (trimStart s) as [|c r]; [done|]. apply trimEnd_space.
Qed.

Lemma trim_space_l (s : string) : trim (" " +:+ s) = trim s.
Proof. reflexivity. Qed.

(** X12. The address string never begins or ends with white space. Where
    the building is the empty string it is the trimmed street, and where
    the street is the empty string it is the trimmed building: the
    separating space is stripped with the rest. *)
Theorem addressString_trimmed (this : Restaurant) :
  trimStart (addressString this) = addressString this /\
  trimEnd (addressString this) = addressString this /\
  (forall s, building (address this) = Val "" ->
             street (address this) = Val s ->
             addressString this = trim s) /\
  (forall b, building (address this) = Val b ->
             street (address this) = Val "" ->
             addressString this = trim b).
Proof.
  unfold addressString. split; [apply trim_spec|]. split; [apply trim_spec|].
  split.
  - intros s -> ->. apply trim_space_l.
  - intros b -> ->. cbn [str_value ToString].
    change (b +:+ " " +:+ "") with (b +:+ " "). apply trim_space_r.
Qed.

Lemma addressString_trimmed_witness :
  addressString (at_address "" "Main St") = trim "Main St".
Proof.
  apply (proj1 (proj2 (proj2 (addressString_trimmed
                                (at_address "" "Main St")))));
    reflexivity.
Defined.

(** ** The list handler, further *)

Lemma find_all (db : list Restaurant) : find ∅ db = db.
Proof.
  unfold find. induction db as [|d db IH]; [done|].
  rewrite filter_cons_True by apply map_Forall_empty. by rewrite IH.
Qed.

Lemma build_filter_none (q : gmap string string) :
  q !! "cuisine" = None -> q !! "borough" = None -> build_filter q = ∅.
Proof.
  intros Hc Hb. apply map_eq. intros k.
  rewrite build_filter_lookup, lookup_empty.
  case_bool_decide as Hk; [|done].
  unfold queryableFields in Hk. rewrite !elem_of_cons, elem_of_nil in Hk.
  by destruct Hk as [-> | [-> | []]].
Qed.

(** X13. The documents listed are documents of the collection, in the
    order of the collection, and all of the matching ones when they are
    ten or fewer. A request with neither [cuisine] nor [borough] lists the
    first ten documents of the collection. *)
Theorem get_restaurants_order (req : Request) (db : list Restaurant) :
  let flt := build_filter (query req) in
  limit 10 (find flt db) `sublist_of` db /\
  ((length (find flt db) <= 10)%nat -> limit 10 (find flt db) = find flt db) /\
  (query req !! "cuisine" = None -> query req !! "borough" = None ->
   response (get_restaurants req db) =
     {| status := 200;
        payload :=
          Json (Obj [("restaurants",
                      Arr ((fun d => toJSON (apiRepr d).1) <$> take 10 db))]) |}).
Proof.
  intros flt. subst flt. split; [|split].
  - unfold limit, find. etrans; [apply sublist_take | apply sublist_filter].
  - intros Hle. unfold limit. by apply take_ge.
  - intros Hc Hb. unfold get_restaurants, json. cbn [response].
    rewrite toJSON_restaurants, build_filter_none, find_all by done.
    reflexivity.
Qed.

Lemma get_restaurants_order_witness :
  response (get_restaurants (with_query {[ "page" := "2" ]}) [graded []]) =
    {| status := 200;
       payload :=
         Json (Obj [("restaurants",
                     Arr ((fun d => toJSON (apiRepr d).1)
                            <$> take 10 [graded []]))]) |}.
Proof.
  apply (proj2 (proj2 (get_restaurants_order
                         (with_query {[ "page" := "2" ]}) [graded []])));
    reflexivity.
Defined.

(** ** Starting and stopping *)

(** X14. [runServer] resolves exactly when the store connects and the port
    binds; the process is then connected and [server] names a listening
    server, one more than listened before. When the store does not connect
    nothing is started; when the port does not bind the connection is
    closed again and no further server listens. *)
Theorem runServer_outcome (connects binds : bool) (p : Process) :
  let r := (runServer connects binds p).1 in
  let p' := (runServer connects binds p).2 in
  (r = Resolved tt <-> connects = true /\ binds = true) /\
  (r = Resolved tt ->
   connected p' = true /\ server p' = Some true /\
   listening p' = S (listening p)) /\
  (connects = false -> r = Rejected /\ p' = p) /\
  (connects = true -> binds = false ->
   r = Rejected /\ connected p' = false /\ listening p' = listening p).
Proof.
  destruct p as [c [[|]|] o], connects, binds; cbn;
    repeat split; try done; try lia; by intros [? ?].
Qed.

Lemma runServer_outcome_witness :
  (runServer true false fresh).1 = Rejected /\
  connected (runServer true false fresh).2 = false /\
  listening (runServer true false fresh).2 = listening fresh.
Proof.
  apply (proj2 (proj2 (proj2 (runServer_outcome true false fresh))));
    reflexivity.
Defined.

Lemma runServer_start (connects binds : bool) (p : Process) :
  (runServer connects binds p).1 = Resolved tt ->
  connects = true /\ binds = true.
Proof. by destruct connects, binds. Qed.

(** X16. [closeServer] always closes the store connection. It resolves
    exactly when [server] names a listening server, which it closes; it
    closes no other server. So a stop after a start that resolved resolves
    and leaves as many servers listening as before the start: none from a
    fresh process, but the server of an earlier start that was not stopped
    keeps listening. *)
Theorem closeServer_outcome (p : Process) :
  let r := (closeServer p).1 in
  let p' := (closeServer p).2 in
  connected p' = false /\
  (r = Resolved tt <-> server p = Some true) /\
  (r = Resolved tt -> listening p' = (listening p - 1)%nat) /\
  (r = Rejected -> listening p' = listening p) /\
  orphans p' = orphans p /\
  (forall connects binds q,
     (runServer connects binds q).1 = Resolved tt ->
     p = (runServer connects binds q).2 ->
     r = Resolved tt /\ listening p' = listening q).
Proof.
  split; [by destruct p as [c [[|]|] o]|].
  split; [by destruct p as [c [[|]|] o]|].
  split; [destruct p as [c [[|]|] o]; cbn; intros; try done; lia|].
  split; [by destruct p as [c [[|]|] o]|].
  split; [by destruct p as [c [[|]|] o]|].
  intros connects binds q Hr ->.
  apply runServer_start in Hr as (-> & ->).
  destruct q as [c [[|]|] o]; cbn; split; try done; lia.
Qed.

Lemma closeServer_outcome_witness :
  (closeServer (runServer true true fresh).2).1 = Resolved tt /\
  listening (closeServer (runServer true true fresh).2).2 = listening fresh.
Proof.
  apply (proj2 (proj2 (proj2 (proj2 (proj2
           (closeServer_outcome (runServer true true fresh).2)))))
           true true fresh);
    reflexivity.
Defined.

(** ** What is sent of a representation *)

(** X17. The body sent for a record always has its [id] and [address];
    it has a [grade] exactly when the most recent grade entry holds one
    ([null] counts), so a record without grades is sent without the key,
    not with an empty value. *)
Theorem sent_grade_key (this : Restaurant) :
  let sent := toJSON (apiRepr this).1 in
  "id" ∈ keys sent /\
  "address" ∈ keys sent /\
  ("grade" ∈ keys sent <-> (grade this).1 <> Undef) /\
  (grades this = [] -> "grade" ∉ keys sent) /\
  member sent "id" = Str (_id this).
Proof.
  intros sent. subst sent.
  assert (grades this = [] -> (grade this).1 = Undef) as Hnone.
  { intros Hnil. by rewrite grade_result, Hnil. }
  rewrite apiRepr_result.
  destruct (name this), (cuisine this), (borough this), (grade this).1;
    cbn [toJSON str_value keys member field fmap list_fmap fst];
    rewrite ?elem_of_cons, ?elem_of_nil;
    (split; [auto 10|]); (split; [auto 10|]);
    (split; [split; [try done; intuition discriminate | auto 10]|]);
    (split; [|reflexivity]);
    intros Hnil; specialize (Hnone Hnil); try discriminate;
    rewrite ?elem_of_cons, ?elem_of_nil; intuition discriminate.
Qed.

Lemma sent_grade_key_witness :
  "grade" ∉ keys (toJSON (apiRepr (graded [])).1).
Proof.
  apply (proj1 (proj2 (proj2 (proj2 (sent_grade_key (graded []))))));
    reflexivity.
Defined.
